(** * rag-doc-consultant: ingestion helpers and the RAG core

    A shallow embedding of [ingest_data.py] and [rag_core.py].

    Conventions.
    - A Python [str] is a Rocq [string], one [ascii] per character.
    - A Python exception is a value of [Exception]; a function that may raise
      returns [Result A], and [let? x := e in k] propagates the exception.
    - What the code delegates to a library (the file system, PyMuPDF,
      requests, the HTML parser, the text splitter, the vector store, the
      chat endpoint) is a field of an environment record ([FileSystem],
      [Web], [Libs]) that the embedded function takes as its first argument.
      What a claim needs of a library's contract is a named predicate on that
      record and a premise of the theorem.
    - The dictionaries [{"source": ..., "content": ...}] have the same two
      keys at every place that builds or reads them, and are the record
      [SourceDoc]; a document's metadata and the dictionary returned by
      [ask_question], whose keys vary, are [gmap]s. *)

From Stdlib Require Import String Ascii List Arith Lia Bool.
From stdpp Require Import base gmap strings list pretty.

Local Open Scope string_scope.
Local Open Scope list_scope.

(** ** Exceptions and results *)

(** The subclasses of [requests.RequestException] that [requests.get] and
    [Response.raise_for_status] raise. *)
Inductive RequestFailure : Type :=
| ConnectionError
| Timeout
| TooManyRedirects
| InvalidURL
| HTTPError (status : nat).

Inductive Exception : Type :=
| OSError (what : string)
| UnicodeDecodeError
| FileDataError
| RequestException (why : RequestFailure)
| ParserRejectedMarkup
| ValueError
| AttributeError (what : string)
| OtherException (name : string).

Definition Result (A : Type) : Type := (Exception + A)%type.

Definition ok {A : Type} (a : A) : Result A := inr a.

Definition raise {A : Type} (e : Exception) : Result A := inl e.

Definition rbind {A B : Type} (r : Result A) (k : A -> Result B) : Result B :=
  match r with
  | inl e => inl e
  | inr a => k a
  end.

Notation "'let?' x ':=' e 'in' k" := (rbind e (fun x => k))
  (at level 10, x name, e at level 100, k at level 200).

(** ** Strings and POSIX paths *)

(** The line feed, Python's ["\n"]. *)
Definition LF : string := String (ascii_of_nat 10) EmptyString.

Module Str.

(** [s.endswith(suf)]: some suffix of [s] is [suf]. *)
Fixpoint endswith (s suf : string) : bool :=
  String.eqb s suf ||
  match s with
  | EmptyString => false
  | String _ s' => endswith s' suf
  end.

(** [s.startswith("/")] *)
Definition startswith_sep (s : string) : bool :=
  match s with
  | String c _ => Ascii.eqb c "/"
  | EmptyString => false
  end.

(** ["/" in s] *)
Fixpoint has_sep (s : string) : bool :=
  match s with
  | EmptyString => false
  | String c s' => Ascii.eqb c "/" || has_sep s'
  end.

(** [sep.join(parts)] *)
Fixpoint join (sep : string) (parts : list string) : string :=
  match parts with
  | [] => ""
  | p :: ps =>
      match ps with
      | [] => p
      | _ :: _ => p +:+ sep +:+ join sep ps
      end
  end.

End Str.

Module Path.

(** [posixpath.join(a, b)] *)
Definition join (a b : string) : string :=
  if Str.startswith_sep b then b
  else if String.eqb a "" || Str.endswith a "/" then a +:+ b
  else a +:+ "/" +:+ b.

(** [posixpath.basename(p)], that is [p[p.rfind("/") + 1:]]. *)
Fixpoint basename (p : string) : string :=
  match p with
  | EmptyString => ""
  | String c p' =>
      if Str.has_sep p' then basename p'
      else if Ascii.eqb c "/" then p' else p
  end.

End Path.

(** ** ingest_data.py *)

(** One extracted document: [{"source": ..., "content": ...}]. *)
Record SourceDoc : Type := mkSourceDoc {
  source : string;
  content : string
}.

(** What [ingest_data.py] asks of the operating system and of PyMuPDF. *)
Record FileSystem : Type := mkFileSystem {
  (** [os.path.exists] *)
  path_exists : string -> bool;
  (** [os.listdir] *)
  listdir : string -> Result (list string);
  (** [open(p, 'r', encoding='utf-8')] followed by [f.read()] *)
  read_utf8 : string -> Result string;
  (** [fitz.open(p)], then [page.get_text()] of every page, in order *)
  fitz_open : string -> Result (list string)
}.

(** A parsed HTML page, as BeautifulSoup holds it: text, CDATA sections,
    the strings that are no text of the page (comments, doctypes,
    declarations, processing instructions), and elements. *)
#[local] Unset Elimination Schemes.
Inductive Node : Type :=
| NavigableString (text : string)
| CData (text : string)
| Comment (text : string)
| Tag (name : string) (children : list Node).
#[local] Set Elimination Schemes.

(** Induction on a page, with the hypothesis for all children of a tag. *)
Fixpoint Node_nested_ind (P : Node -> Prop)
    (Hstring : forall text, P (NavigableString text))
    (Hcdata : forall text, P (CData text))
    (Hcomment : forall text, P (Comment text))
    (Htag : forall name children, Forall P children -> P (Tag name children))
    (n : Node) : P n :=
  match n with
  | NavigableString text => Hstring text
  | CData text => Hcdata text
  | Comment text => Hcomment text
  | Tag name children =>
      Htag name children
        ((fix all (l : list Node) : Forall P l :=
            match l with
            | [] => @List.Forall_nil Node P
            | c :: l' =>
                @List.Forall_cons Node P c l'
                  (Node_nested_ind P Hstring Hcdata Hcomment Htag c) (all l')
            end) children)
  end.

Record Response : Type := mkResponse {
  status_code : nat;
  body : string
}.

(** What [scrape_web_page] asks of requests, BeautifulSoup and [str]. *)
Record Web : Type := mkWeb {
  (** [requests.get(url, timeout=t)] *)
  requests_get : string -> nat -> Result Response;
  (** [BeautifulSoup(content, 'html.parser')]: the children of the document,
      or the exception of a parser that rejects the markup *)
  html_parser : string -> Result (list Node);
  (** [str.strip()] *)
  str_strip : string -> string
}.

Module Ingest.

(** *** Parsing files *)

(** The loop [for page_num, page in enumerate(doc)] of [parse_pdf], from the
    page with index [page_num] on. *)
Fixpoint pdf_pages (base : string) (page_num : nat) (pages : list string)
  : list SourceDoc :=
  match pages with
  | [] => []
  | text :: rest =>
      {| source := base +:+ " - Page " +:+ pretty (page_num + 1);
         content := text |} :: pdf_pages base (S page_num) rest
  end.

Definition parse_pdf (fs : FileSystem) (file_path : string)
  : Result (list SourceDoc) :=
  if negb (path_exists fs file_path) then ok []
  else
    let? doc := fitz_open fs file_path in
    ok (pdf_pages (Path.basename file_path) 0 doc).

Definition parse_markdown (fs : FileSystem) (file_path : string)
  : Result (list SourceDoc) :=
  if negb (path_exists fs file_path) then ok []
  else
    let? text := read_utf8 fs file_path in
    ok [ {| source := Path.basename file_path; content := text |} ].

Definition parse_text (fs : FileSystem) (file_path : string)
  : Result (list SourceDoc) :=
  if negb (path_exists fs file_path) then ok []
  else
    let? text := read_utf8 fs file_path in
    ok [ {| source := Path.basename file_path; content := text |} ].

(** *** Scraping a page *)

(** The tags that [scrape_web_page] removes. *)
Definition NON_CONTENT_TAGS : list string :=
  ["script"; "style"; "nav"; "footer"; "header"].

Definition name_in (names : list string) (name : string) : bool :=
  existsb (String.eqb name) names.

(** [for tag in soup(names): tag.decompose()]: every element with one of the
    names is taken out of the tree, with all that is below it. *)
Fixpoint decompose (names : list string) (n : Node) : list Node :=
  match n with
  | Tag name children =>
      if name_in names name then []
      else [Tag name (flat_map (decompose names) children)]
  | _ => [n]
  end.

Definition decompose_all (names : list string) (soup : list Node) : list Node :=
  flat_map (decompose names) soup.

(** The elements whose text the parser stores as strings of a class of
    their own (ruby text, style sheets, scripts, templates). *)
Definition STRING_CONTAINERS : list string :=
  ["rt"; "rp"; "style"; "script"; "template"].

(** The strings [get_text] visits, in document order: the text and the
    CDATA sections. Text below an element of [STRING_CONTAINERS] is of
    another class and is not among them, and neither are comments.
    [inside] says whether the node is below such an element. *)
Fixpoint all_strings (inside : bool) (n : Node) : list string :=
  match n with
  | NavigableString text => if inside then [] else [text]
  | CData text => [text]
  | Comment _ => []
  | Tag name children =>
      flat_map (all_strings (inside || name_in STRING_CONTAINERS name))
        children
  end.

Definition nonempty (s : string) : bool := negb (String.eqb s "").

(** [soup.get_text(separator=sep, strip=True)] *)
Definition get_text (web : Web) (sep : string) (soup : list Node) : string :=
  Str.join sep
    (List.filter nonempty
       (map (str_strip web) (flat_map (all_strings false) soup))).

(** [response.raise_for_status()] *)
Definition raise_for_status (response : Response) : Result unit :=
  if ((400 <=? status_code response) && (status_code response <? 600))%nat
  then raise (RequestException (HTTPError (status_code response)))
  else ok tt.

(** The body of the [try] block. *)
Definition scrape_try (web : Web) (url : string) : Result (list SourceDoc) :=
  let? response := requests_get web url 10 in
  let? _ := raise_for_status response in
  let? soup := html_parser web (body response) in
  let soup := decompose_all NON_CONTENT_TAGS soup in
  let text := get_text web LF soup in
  ok [ {| source := url; content := text |} ].

Definition scrape_web_page (web : Web) (url : string)
  : Result (list SourceDoc) :=
  match scrape_try web url with
  | inl (RequestException _) => ok []
  | r => r
  end.

(** *** Loading a directory *)

(** The [for filename in os.listdir(source_dir)] loop over the names still to
    visit, with the accumulator [all_docs]. *)
Fixpoint load_loop (fs : FileSystem) (source_dir : string)
    (names : list string) (all_docs : list SourceDoc)
  : Result (list SourceDoc) :=
  match names with
  | [] => ok all_docs
  | filename :: rest =>
      let file_path := Path.join source_dir filename in
      if Str.endswith filename ".pdf" then
        let? ds := parse_pdf fs file_path in
        load_loop fs source_dir rest (all_docs ++ ds)
      else if Str.endswith filename ".md" then
        let? ds := parse_markdown fs file_path in
        load_loop fs source_dir rest (all_docs ++ ds)
      else if Str.endswith filename ".txt" then
        let? ds := parse_text fs file_path in
        load_loop fs source_dir rest (all_docs ++ ds)
      else load_loop fs source_dir rest all_docs
  end.

Definition load_documents (fs : FileSystem) (source_dir : string)
  : Result (list SourceDoc) :=
  let? names := listdir fs source_dir in
  load_loop fs source_dir names [].

End Ingest.

(** ** rag_core.py *)

(** [langchain_core.documents.Document] *)
Record Document : Type := mkDocument {
  page_content : string;
  metadata : gmap string string
}.

(** Chat messages: what the conversation memory stores and what a chat
    prompt is made of. *)
Inductive Message : Type :=
| SystemMessage (text : string)
| HumanMessage (text : string)
| AIMessage (text : string).

(** A Chroma vector store object, named by the call that built it. What it
    holds is the collection persisted in its directory, to which
    [Chroma.from_documents] adds its documents; the collection is not part
    of the object. *)
Inductive VectorStore : Type :=
| Chroma (persist_directory : string) (embedding_function : string)
| Chroma_from_documents (documents : list Document) (embedding : string)
    (persist_directory : string).

(** [vector_store.as_retriever(search_kwargs={"k": k})] *)
Record Retriever : Type := as_retriever {
  vectorstore : VectorStore;
  search_k : nat
}.

(** The chain that [setup_qa_chain] builds. Its model is bound when the chain
    is built; its three input steps are closures over [self], which read
    [self.retriever] and [self.memory] when the chain runs. *)
Record QAChain : Type := mkQAChain {
  chain_llm : string
}.

(** The values of the dictionary that [ask_question] returns. *)
Inductive Value : Type :=
| VStr (s : string)
| VDocs (docs : list Document).

(** The two searches of one call of [ask_question]: the one it makes for
    the sources it returns, and the one the chain makes for its context. *)
Inductive Retrieval : Type :=
| ForSources
| ForContext.

(** What [rag_core.py] asks of langchain, Chroma and the chat endpoint. *)
Record Libs : Type := mkLibs {
  (** [RecursiveCharacterTextSplitter(chunk_size, chunk_overlap).split_text] *)
  split_text : nat -> nat -> string -> list string;
  (** what the store answers to that search of the call: the [k] nearest
      documents of its collection for the query, as the collection is when
      the search is made *)
  similarity_search : Retrieval -> VectorStore -> string -> nat -> list Document;
  (** the text of the message the chat model of that name answers with *)
  chat_invoke : string -> list Message -> string;
  (** [str(messages)], as the prompt template formats a list of messages *)
  str_messages : list Message -> string
}.

(** The attributes of a [RAGCore] object. [memory] is the message buffer of
    the [ConversationBufferMemory]; [embedding_function] and [llm] are the
    names of the models the two clients were created for. *)
Record RAGCore : Type := mkRAGCore {
  vector_store : option VectorStore;
  qa_chain : option QAChain;
  retriever : option Retriever;
  memory : list Message;
  embedding_function : string;
  llm : string
}.

(** What a call does that is visible outside the object, in the order it
    happens. *)
Inductive Event : Type :=
| RetrieverInvoked (r : Retriever) (query : string) (docs : list Document)
| MemoryLoaded (chat_history : list Message)
| PromptAssembled (prompt : list Message)
| ModelInvoked (model : string) (prompt : list Message) (reply : string)
| ContextSaved (question answer : string).

(** The outcome of running a method: its value or exception, the object
    afterwards, and the events in order. *)
Record Outcome (A : Type) : Type := mkOutcome {
  value : Result A;
  after : RAGCore;
  trace : list Event
}.

Arguments mkOutcome {A} _ _ _.
Arguments value {A} _.
Arguments after {A} _.
Arguments trace {A} _.

Definition Method (A : Type) : Type := RAGCore -> Outcome A.

Definition method_ret {A : Type} (a : A) : Method A :=
  fun self => mkOutcome (ok a) self [].

Definition method_raise {A : Type} (e : Exception) : Method A :=
  fun self => mkOutcome (raise e) self [].

Definition method_bind {A B : Type} (k : A -> Method B) (m : Method A)
  : Method B :=
  fun self =>
    match m self with
    | mkOutcome (inl e) self' events => mkOutcome (inl e) self' events
    | mkOutcome (inr a) self' events =>
        match k a self' with
        | mkOutcome v self'' events' => mkOutcome v self'' (events ++ events')
        end
    end.

(** With these two instances a method body reads [x ← m; k]. *)
#[global] Instance Method_ret : MRet Method := @method_ret.

#[global] Instance Method_bind : MBind Method := @method_bind.

Definition emit (e : Event) : Method unit :=
  fun self => mkOutcome (ok tt) self [e].

Definition get_self : Method RAGCore :=
  fun self => mkOutcome (ok self) self [].

Definition set_vector_store (vs : VectorStore) : Method unit :=
  fun self =>
    mkOutcome (ok tt)
      {| vector_store := Some vs; qa_chain := qa_chain self;
         retriever := retriever self; memory := memory self;
         embedding_function := embedding_function self; llm := llm self |} [].

Definition set_retriever (r : Retriever) : Method unit :=
  fun self =>
    mkOutcome (ok tt)
      {| vector_store := vector_store self; qa_chain := qa_chain self;
         retriever := Some r; memory := memory self;
         embedding_function := embedding_function self; llm := llm self |} [].

Definition set_memory (messages : list Message) : Method unit :=
  fun self =>
    mkOutcome (ok tt)
      {| vector_store := vector_store self; qa_chain := qa_chain self;
         retriever := retriever self; memory := messages;
         embedding_function := embedding_function self; llm := llm self |} [].

Module Rag.

Definition LLM_REPO_ID : string := "mistralai/Mixtral-8x7B-Instruct-v0.1".

Definition VECTORSTORE_DIR : string := "vectorstore".

Definition EMBEDDING_MODEL_NAME : string :=
  "sentence-transformers/all-MiniLM-L6-v2".

Definition SYSTEM_TEXT : string :=
  "You are an expert technical assistant. Use the provided context to answer the user's question. If you don't know the answer, state that you don't know. Do not try to make up an answer.".

(** [RAG_PROMPT.invoke({"context": .., "chat_history": .., "question": ..})],
    with the three values already formatted as the template's [format] does. *)
Definition RAG_PROMPT (context chat_history question : string) : list Message :=
  [ SystemMessage SYSTEM_TEXT;
    HumanMessage
      ("CONTEXT:" +:+ LF +:+ context +:+ LF +:+ LF +:+
       "CHAT HISTORY:" +:+ LF +:+ chat_history +:+ LF +:+ LF +:+
       "QUESTION:" +:+ LF +:+ question +:+ LF +:+ LF +:+ "ANSWER:") ].

(** [RAGCore()] *)
Definition init : RAGCore :=
  {| vector_store := None; qa_chain := None; retriever := None; memory := [];
     embedding_function := EMBEDDING_MODEL_NAME; llm := LLM_REPO_ID |}.

(** [load_existing_vectorstore], where [dir_exists] is what
    [os.path.exists(VECTORSTORE_DIR)] answers at the call. *)
Definition load_existing_vectorstore (dir_exists : bool) (self : RAGCore)
  : bool * RAGCore :=
  if dir_exists then
    let vs := Chroma VECTORSTORE_DIR (embedding_function self) in
    (true,
     {| vector_store := Some vs; qa_chain := qa_chain self;
        retriever := Some (as_retriever vs 4); memory := memory self;
        embedding_function := embedding_function self; llm := llm self |})
  else (false, self).

(** [Document(page_content=doc['content'], metadata={'source': doc['source']})] *)
Definition to_document (doc : SourceDoc) : Document :=
  {| page_content := content doc;
     metadata := {[ "source" := source doc ]} |}.

(** [text_splitter.split_documents(docs)]: the pieces of every document, in
    order, each with the metadata of the document it was cut from. *)
Definition split_documents (lib : Libs) (chunk_size chunk_overlap : nat)
    (docs : list Document) : list Document :=
  flat_map
    (fun doc =>
       map (fun piece => {| page_content := piece; metadata := metadata doc |})
         (split_text lib chunk_size chunk_overlap (page_content doc)))
    docs.

(** [Chroma.from_documents(documents=.., embedding=.., persist_directory=..)]:
    the store object for the directory, after the documents were added to
    its collection. It raises [ValueError] when there is no document to
    add. *)
Definition from_documents (documents : list Document)
    (embedding persist_directory : string) : Method VectorStore :=
  match documents with
  | [] => method_raise ValueError
  | _ :: _ =>
      mret (Chroma_from_documents documents embedding persist_directory)
  end.

Definition ingest_documents (lib : Libs) (source_documents : list SourceDoc)
  : Method unit :=
  match source_documents with
  | [] => mret tt
  | _ :: _ =>
      let docs_to_process := map to_document source_documents in
      let chunked_docs := split_documents lib 1000 200 docs_to_process in
      self ← get_self;
      vs ← from_documents chunked_docs (embedding_function self)
             VECTORSTORE_DIR;
      _ ← set_vector_store vs;
      set_retriever (as_retriever vs 4)
  end.

Definition format_doc (doc : Document) : string :=
  "Source: " +:+ default "Unknown" (metadata doc !! "source") +:+ LF +:+
  "Content: " +:+ page_content doc.

Definition _format_docs (docs : list Document) : string :=
  Str.join (LF +:+ LF) (map format_doc docs).

Definition setup_qa_chain (self : RAGCore) : RAGCore :=
  match retriever self with
  | None => self
  | Some _ =>
      {| vector_store := vector_store self;
         qa_chain := Some {| chain_llm := llm self |};
         retriever := retriever self; memory := memory self;
         embedding_function := embedding_function self; llm := llm self |}
  end.

(** [self.retriever.invoke(query)], with the attribute read at the call;
    [which] says which of the two searches of [ask_question] it is. *)
Definition retriever_invoke (lib : Libs) (which : Retrieval) (query : string)
  : Method (list Document) :=
  self ← get_self;
  match retriever self with
  | None => method_raise (AttributeError "'NoneType' object has no attribute 'invoke'")
  | Some r =>
      let docs :=
        similarity_search lib which (vectorstore r) query (search_k r) in
      _ ← emit (RetrieverInvoked r query docs);
      mret docs
  end.

(** The [context] step of the chain. *)
Definition context_step (lib : Libs) (question : string) : Method string :=
  docs ← retriever_invoke lib ForContext question;
  mret (_format_docs docs).

(** [get_chat_history]: the messages of [self.memory]. *)
Definition get_chat_history : Method (list Message) :=
  self ← get_self;
  _ ← emit (MemoryLoaded (memory self));
  mret (memory self).

(** The dictionary of three steps at the head of the chain. langchain runs
    the steps on a thread pool; [context_first] says whether the retrieval of
    the [context] step happens before the read of [get_chat_history]. *)
Definition input_steps (lib : Libs) (context_first : bool) (question : string)
  : Method (string * string * list Message) :=
  if context_first then
    context ← context_step lib question;
    chat_history ← get_chat_history;
    mret (context, question, chat_history)
  else
    chat_history ← get_chat_history;
    context ← context_step lib question;
    mret (context, question, chat_history).

(** [StrOutputParser]: the text of the model's message. *)
Definition StrOutputParser (m : Message) : string :=
  match m with
  | SystemMessage text | HumanMessage text | AIMessage text => text
  end.

(** [chain.invoke({"question": question})] *)
Definition chain_invoke (lib : Libs) (context_first : bool) (chain : QAChain)
    (question : string) : Method string :=
  '(context, question, chat_history) ← input_steps lib context_first question;
  let prompt := RAG_PROMPT context (str_messages lib chat_history) question in
  _ ← emit (PromptAssembled prompt);
  let reply := chat_invoke lib (chain_llm chain) prompt in
  _ ← emit (ModelInvoked (chain_llm chain) prompt reply);
  mret (StrOutputParser (AIMessage reply)).

(** [self.memory.save_context({"question": q}, {"answer": a})] *)
Definition save_context (question answer : string) : Method unit :=
  self ← get_self;
  _ ← set_memory (memory self ++ [HumanMessage question; AIMessage answer]);
  emit (ContextSaved question answer).

Definition ask_question (lib : Libs) (context_first : bool) (question : string)
  : Method (gmap string Value) :=
  self ← get_self;
  match qa_chain self with
  | None => mret {[ "answer" := VStr "The QA system is not initialized." ]}
  | Some chain =>
      relevant_docs ← retriever_invoke lib ForSources question;
      answer ← chain_invoke lib context_first chain question;
      _ ← save_context question answer;
      mret (<[ "source_documents" := VDocs relevant_docs ]>
              {[ "answer" := VStr answer ]})
  end.

(** The objects a session can hold: a fresh [RAGCore] after any sequence of
    calls of its methods, whatever the libraries answer at each call. *)
Inductive reachable : RAGCore -> Prop :=
| reach_init : reachable init
| reach_load (dir_exists : bool) (self : RAGCore) :
    reachable self ->
    reachable (snd (load_existing_vectorstore dir_exists self))
| reach_ingest (lib : Libs) (docs : list SourceDoc) (self : RAGCore) :
    reachable self -> reachable (after (ingest_documents lib docs self))
| reach_setup (self : RAGCore) :
    reachable self -> reachable (setup_qa_chain self)
| reach_ask (lib : Libs) (context_first : bool) (question : string)
    (self : RAGCore) :
    reachable self ->
    reachable (after (ask_question lib context_first question self)).

End Rag.

(** ** What the claims speak of *)

Module Spec.

(** The entries a PDF contributes: one per page, numbered from 1. *)
Definition pdf_entries (base : string) (pages : list string) : list SourceDoc :=
  imap (fun i text =>
          {| source := base +:+ " - Page " +:+ pretty (i + 1);
             content := text |}) pages.

(** What one name in a directory contributes to [load_documents], when the
    files with a supported name are there and can be read. *)
Inductive file_entries (fs : FileSystem) (source_dir filename : string)
  : list SourceDoc -> Prop :=
| entries_pdf (pages : list string) :
    Str.endswith filename ".pdf" = true ->
    path_exists fs (Path.join source_dir filename) = true ->
    fitz_open fs (Path.join source_dir filename) = ok pages ->
    file_entries fs source_dir filename (pdf_entries filename pages)
| entries_markdown (text : string) :
    Str.endswith filename ".pdf" = false ->
    Str.endswith filename ".md" = true ->
    path_exists fs (Path.join source_dir filename) = true ->
    read_utf8 fs (Path.join source_dir filename) = ok text ->
    file_entries fs source_dir filename
      [ {| source := filename; content := text |} ]
| entries_text (text : string) :
    Str.endswith filename ".pdf" = false ->
    Str.endswith filename ".md" = false ->
    Str.endswith filename ".txt" = true ->
    path_exists fs (Path.join source_dir filename) = true ->
    read_utf8 fs (Path.join source_dir filename) = ok text ->
    file_entries fs source_dir filename
      [ {| source := filename; content := text |} ]
| entries_skipped :
    Str.endswith filename ".pdf" = false ->
    Str.endswith filename ".md" = false ->
    Str.endswith filename ".txt" = false ->
    file_entries fs source_dir filename [].

(** The text of a page that is not inside an element with one of the names:
    its text nodes and CDATA sections outside those elements. As in the page
    text itself, text below a ruby text, style, script or template element
    does not count; [inside] says whether the node is below one. *)
Fixpoint strings_outside (names : list string) (inside : bool) (n : Node)
  : list string :=
  match n with
  | NavigableString text => if inside then [] else [text]
  | CData text => [text]
  | Comment _ => []
  | Tag name children =>
      if Ingest.name_in names name then []
      else
        flat_map
          (strings_outside names
             (inside || Ingest.name_in Ingest.STRING_CONTAINERS name))
          children
  end.

(** The page text: the stripped text nodes that are not empty, one per line. *)
Definition page_text (web : Web) (strings : list string) : string :=
  Str.join LF (List.filter Ingest.nonempty (map (str_strip web) strings)).

(** No element with one of the names is left, at any depth. *)
Fixpoint free_of (names : list string) (n : Node) : bool :=
  match n with
  | Tag name children =>
      negb (Ingest.name_in names name) && forallb (free_of names) children
  | _ => true
  end.

(** The status codes for which [raise_for_status] raises. *)
Definition error_status (status : nat) : Prop := 400 <= status < 600.

(** The splitter's contract on sizes: no piece is longer than the chunk
    size. *)
Definition respects_chunk_size (lib : Libs) : Prop :=
  forall size overlap text piece,
    overlap <= size ->
    In piece (split_text lib size overlap text) ->
    String.length piece <= size.

(** [piece] is the segment of [text] that starts at offset [i]. *)
Definition occurs_at (text piece : string) (i : nat) : Prop :=
  substring i (String.length piece) text = piece.

(** [a] and then [b] are segments of [text] that share at most [overlap]
    characters of it. *)
Definition overlap_at_most (overlap : nat) (text a b : string) : Prop :=
  exists i j,
    i <= j /\ occurs_at text a i /\ occurs_at text b j /\
    i + String.length a <= j + overlap.

(** The splitter's contract on overlaps: a piece and the next one share at
    most the chunk overlap. *)
Definition respects_chunk_overlap (lib : Libs) : Prop :=
  forall size overlap text before a b rest,
    overlap <= size ->
    split_text lib size overlap text = before ++ a :: b :: rest ->
    overlap_at_most overlap text a b.

(** The store's contract: a search for [k] neighbours returns at most [k]
    documents. *)
Definition limits_results (lib : Libs) : Prop :=
  forall which vs query k,
    length (similarity_search lib which vs query k) <= k.

(** The events of the three input steps of the chain, in the order they
    happen. *)
Definition input_events (context_first : bool) (r : Retriever)
    (question : string) (docs : list Document) (history : list Message)
  : list Event :=
  if context_first
  then [RetrieverInvoked r question docs; MemoryLoaded history]
  else [MemoryLoaded history; RetrieverInvoked r question docs].

(** What holds of every object a session can hold: a chain is only there
    with a retriever, and a retriever asks for 4 neighbours of the store the
    object holds. *)
Definition session_invariant (self : RAGCore) : Prop :=
  (forall chain, qa_chain self = Some chain -> retriever self <> None) /\
  (forall r, retriever self = Some r ->
             search_k r = 4 /\ vector_store self = Some (vectorstore r)).

End Spec.

(** ** Small instances of the environments, used to run the definitions *)

Module Toy.

Definition fs : FileSystem :=
  {| path_exists := fun p =>
       String.eqb p "docs/a.pdf" || String.eqb p "docs/notes.md" ||
       String.eqb p "docs/readme.txt" || String.eqb p "docs/logo.png";
     listdir := fun d =>
       if String.eqb d "docs"
       then ok ["a.pdf"; "logo.png"; "notes.md"; "readme.txt"]
       else raise (OSError "No such file or directory");
     read_utf8 := fun p =>
       if String.eqb p "docs/notes.md" then ok "# Notes"
       else if String.eqb p "docs/readme.txt" then ok "read me"
       else raise UnicodeDecodeError;
     fitz_open := fun p =>
       if String.eqb p "docs/a.pdf" then ok ["first page"; "second page"]
       else raise FileDataError |}.

(** [strip] for a string whose only white space is the blank. *)
Fixpoint lstrip (s : string) : string :=
  match s with
  | String " " s' => lstrip s'
  | _ => s
  end.

Definition strip (s : string) : string :=
  String.rev (lstrip (String.rev (lstrip s))).

Definition page : list Node :=
  [ Tag "html"
      [ Tag "head" [ Tag "script" [ NavigableString "var x = 1;" ] ];
        Tag "body"
          [ Tag "nav" [ Tag "a" [ NavigableString "Home" ] ];
            Tag "p" [ NavigableString " Vector stores "; Comment "draft" ];
            Tag "div" [ Tag "style" [ NavigableString "p {}" ];
                        NavigableString "  " ;
                        NavigableString "index text" ];
            Tag "template" [ Tag "p" [ NavigableString "slot" ] ];
            Tag "footer" [ NavigableString "Imprint" ] ] ] ].

(** A site with a page that is served, a page that is gone, a page that is
    answered with 304 Not Modified, a page whose markup the parser rejects,
    and nothing else that answers in time. *)
Definition web : Web :=
  {| requests_get := fun url _ =>
       if String.eqb url "http://docs.example/" then ok (mkResponse 200 "<html>")
       else if String.eqb url "http://docs.example/gone" then ok (mkResponse 404 "")
       else if String.eqb url "http://docs.example/cached" then ok (mkResponse 304 "")
       else if String.eqb url "http://docs.example/broken"
       then ok (mkResponse 200 "<![spam[x]]>")
       else raise (RequestException Timeout);
     html_parser := fun markup =>
       if String.eqb markup "<![spam[x]]>" then raise ParserRejectedMarkup
       else if String.eqb markup "" then ok []
       else ok page;
     str_strip := strip |}.

(** The windows of [size] characters of a text from offset [start] on, each
    starting [step] characters after the one before, up to the end of the
    text. *)
Fixpoint windows (fuel start size step : nat) (text : string) : list string :=
  match fuel with
  | 0 => []
  | S fuel' =>
      if (String.length text <=? start + size)%nat
      then [ substring start size text ]
      else substring start size text ::
           windows fuel' (start + step) size step text
  end.

(** A splitter that gives no piece for the empty text, keeps a short text
    whole and cuts a longer one into windows of the chunk size, each
    starting [overlap] characters before the one before ends. *)
Definition split_windows (size overlap : nat) (text : string) : list string :=
  if String.eqb text "" then []
  else if (String.length text <=? size)%nat then [ text ]
  else windows (String.length text) 0 size (size - overlap) text.

Definition stored (vs : VectorStore) : list Document :=
  match vs with
  | Chroma _ _ => []
  | Chroma_from_documents documents _ _ => documents
  end.

Definition lib : Libs :=
  {| split_text := split_windows;
     similarity_search := fun _ vs _ k => firstn k (stored vs);
     chat_invoke := fun _ _ => "I don't know.";
     str_messages := fun ms => "[" +:+ pretty (length ms) +:+ " messages]" |}.

(** The same libraries over a collection that grows between the two
    searches of a call: the search for the sources finds one passage, the
    search for the context finds what is there by then. *)
Definition growing_lib : Libs :=
  {| split_text := split_windows;
     similarity_search := fun which vs _ k =>
       match which with
       | ForSources => firstn (Nat.min 1 k) (stored vs)
       | ForContext => firstn k (stored vs)
       end;
     chat_invoke := fun _ _ => "I don't know.";
     str_messages := fun ms => "[" +:+ pretty (length ms) +:+ " messages]" |}.

Definition docs : list SourceDoc :=
  [ {| source := "readme.txt"; content := "read me" |};
    {| source := "notes.md"; content := "# Notes" |} ].

(** A text of 1200 characters. *)
Definition manual : string :=
  String.concat "" (repeat "0123456789" 120).

Definition long_docs : list SourceDoc :=
  [ {| source := "manual.txt"; content := manual |} ].

(** A file without content. *)
Definition blank_docs : list SourceDoc :=
  [ {| source := "empty.txt"; content := "" |} ].

(** A session: ingest two documents, set the chain up, ask one question. *)
Definition ready : RAGCore :=
  Rag.setup_qa_chain (after (Rag.ingest_documents lib docs Rag.init)).

Definition asked : RAGCore :=
  after (Rag.ask_question lib true "What is indexed?" ready).

End Toy.

(** ** Sequences of calls *)

Module Session.

(** One call of a method of a [RAGCore] object, with the libraries it runs
    against. *)
Inductive Call : Type :=
| Load (dir_exists : bool)
| Ingest (lib : Libs) (source_documents : list SourceDoc)
| Setup
| Ask (lib : Libs) (context_first : bool) (question : string).

(** The object after the call. *)
Definition call (c : Call) (self : RAGCore) : RAGCore :=
  match c with
  | Load dir_exists => snd (Rag.load_existing_vectorstore dir_exists self)
  | Ingest lib source_documents =>
      after (Rag.ingest_documents lib source_documents self)
  | Setup => Rag.setup_qa_chain self
  | Ask lib context_first question =>
      after (Rag.ask_question lib context_first question self)
  end.

(** The object after the calls, first to last. *)
Definition calls (cs : list Call) (self : RAGCore) : RAGCore :=
  fold_left (fun s c => call c s) cs self.

(** The object after the questions were asked one after the other. *)
Definition ask_all (lib : Libs) (context_first : bool)
    (questions : list string) (self : RAGCore) : RAGCore :=
  fold_left
    (fun s question => after (Rag.ask_question lib context_first question s))
    questions self.

(** The exchanges a conversation adds to a memory that holds [history]: each
    question with the model's reply to the prompt made of the passages
    retrieved for it and of all that was said before. *)
Fixpoint exchanges (lib : Libs) (chain : QAChain) (r : Retriever)
    (history : list Message) (questions : list string) : list Message :=
  match questions with
  | [] => []
  | question :: rest =>
      let docs :=
        similarity_search lib ForContext (vectorstore r) question
          (search_k r) in
      let prompt :=
        Rag.RAG_PROMPT (Rag._format_docs docs) (str_messages lib history)
          question in
      let answer := chat_invoke lib (chain_llm chain) prompt in
      HumanMessage question :: AIMessage answer ::
      exchanges lib chain r
        (history ++ [HumanMessage question; AIMessage answer]) rest
  end.

(** The messages of question and answer pairs, in order. *)
Definition pairs_messages (pairs : list (string * string)) : list Message :=
  flat_map (fun qa => [HumanMessage (fst qa); AIMessage (snd qa)]) pairs.

(** What makes [load_documents] fail at a name: the file is there, has a
    supported name, and opening or decoding it raises. *)
Inductive file_raises (fs : FileSystem) (source_dir filename : string)
    (e : Exception) : Prop :=
| raises_pdf :
    Str.endswith filename ".pdf" = true ->
    path_exists fs (Path.join source_dir filename) = true ->
    fitz_open fs (Path.join source_dir filename) = raise e ->
    file_raises fs source_dir filename e
| raises_markdown :
    Str.endswith filename ".pdf" = false ->
    Str.endswith filename ".md" = true ->
    path_exists fs (Path.join source_dir filename) = true ->
    read_utf8 fs (Path.join source_dir filename) = raise e ->
    file_raises fs source_dir filename e
| raises_text :
    Str.endswith filename ".pdf" = false ->
    Str.endswith filename ".md" = false ->
    Str.endswith filename ".txt" = true ->
    path_exists fs (Path.join source_dir filename) = true ->
    read_utf8 fs (Path.join source_dir filename) = raise e ->
    file_raises fs source_dir filename e.

(** [isinstance(e, requests.RequestException)] *)
Definition is_request_exception (e : Exception) : bool :=
  match e with
  | RequestException _ => true
  | _ => false
  end.

End Session.

(** ** app.py *)

Module App.

(** A file of [st.file_uploader]. *)
Record UploadedFile : Type := mkUploadedFile {
  name : string;
  getbuffer : string
}.

(** An entry of [st.session_state.messages]:
    [{"role": ..., "content": ...}]. *)
Record ChatMessage : Type := mkChatMessage {
  role : string;
  content : Value
}.

(** [st.session_state]: each of the three keys is there or not. *)
Record SessionState : Type := mkSessionState {
  rag_core : option RAGCore;
  chain_ready : option bool;
  messages : option (list ChatMessage)
}.

(** The state of a browser session that has run nothing yet. *)
Definition new_session : SessionState :=
  {| rag_core := None; chain_ready := None; messages := None |}.

(** What the widgets return in one run of the script. *)
Record Inputs : Type := mkInputs {
  (** [st.file_uploader(..., accept_multiple_files=True)] *)
  uploaded_files : list UploadedFile;
  (** [st.text_input(...)] *)
  url_to_scrape : string;
  (** [st.button("Ingest Documents")] *)
  ingest_button : bool;
  (** [st.chat_input(...)] *)
  chat_input : option string
}.

(** What one run of the script finds around it. *)
Record Host : Type := mkHost {
  (** ["HUGGINGFACEHUB_API_TOKEN" in os.environ], after [load_dotenv()] *)
  token_set : bool;
  (** the file system as the run finds it *)
  disk : FileSystem;
  (** [os.makedirs(path)] *)
  makedirs : FileSystem -> string -> FileSystem;
  (** [open(path, "wb")] followed by [f.write(data)] *)
  write_file : FileSystem -> string -> string -> FileSystem;
  web : Web;
  lib : Libs;
  (** the order in which the thread pool runs the chain's input steps *)
  context_first : bool
}.

(** What [st.error], [st.warning] and [st.success] show. *)
Inductive Notice : Type :=
| Error (text : string)
| Warning (text : string)
| Success (text : string).

(** The outcome of one run of the script: the exception that ended it, if
    any, the session state it leaves and the notices it showed, in order. *)
Record Run : Type := mkRun {
  raised : option Exception;
  session : SessionState;
  notices : list Notice
}.

Definition TEMP_DIR : string := "temp_uploaded".

Definition initialize_session_state (host : Host) (s : SessionState)
  : SessionState :=
  let rag :=
    match rag_core s with
    | Some rag => rag
    | None => Rag.init
    end in
  let '(rag, ready) :=
    match chain_ready s with
    | Some ready => (rag, ready)
    | None =>
        let '(loaded, rag) :=
          Rag.load_existing_vectorstore
            (path_exists (disk host) Rag.VECTORSTORE_DIR) rag in
        if loaded then (Rag.setup_qa_chain rag, true) else (rag, false)
    end in
  let msgs :=
    match messages s with
    | Some msgs => msgs
    | None => []
    end in
  {| rag_core := Some rag; chain_ready := Some ready; messages := Some msgs |}.

(** The file system after the uploaded files were written to the temporary
    directory. *)
Definition save_uploads (host : Host) (files : list UploadedFile)
  : FileSystem :=
  let fs :=
    if path_exists (disk host) TEMP_DIR then disk host
    else makedirs host (disk host) TEMP_DIR in
  fold_left
    (fun fs file =>
       write_file host fs (Path.join TEMP_DIR (name file)) (getbuffer file))
    files fs.

(** The documents the ingest button collects: [all_docs]. *)
Definition collect (host : Host) (inputs : Inputs) : Result (list SourceDoc) :=
  let? from_files :=
    match uploaded_files inputs with
    | [] => ok []
    | _ :: _ =>
        Ingest.load_documents (save_uploads host (uploaded_files inputs))
          TEMP_DIR
    end in
  let? from_url :=
    if String.eqb (url_to_scrape inputs) "" then ok []
    else Ingest.scrape_web_page (web host) (url_to_scrape inputs) in
  ok (from_files ++ from_url).

(** The sidebar: the ingest button and, below it, the status line. *)
Definition sidebar (host : Host) (inputs : Inputs) (rag : RAGCore)
    (ready : bool) : option Exception * RAGCore * bool * list Notice :=
  let status (ready : bool) :=
    if ready
    then Success "Data has been ingested. The QA system is ready."
    else Warning "No data ingested yet. Please upload documents." in
  if ingest_button inputs then
    match uploaded_files inputs, String.eqb (url_to_scrape inputs) "" with
    | [], true =>
        (None, rag, ready,
         [Warning "Please upload files or provide a URL to ingest.";
          status ready])
    | _, _ =>
        match collect host inputs with
        | inl e => (Some e, rag, ready, [])
        | inr all_docs =>
            let o := Rag.ingest_documents (lib host) all_docs rag in
            match value o with
            | inl e => (Some e, after o, ready, [])
            | inr _ =>
                let rag := Rag.setup_qa_chain (after o) in
                (None, rag, true,
                 [Success "Ingestion complete! You can now ask questions.";
                  status true])
            end
        end
    end
  else (None, rag, ready, [status ready]).

Definition user_message (prompt : string) : ChatMessage :=
  {| role := "user"; content := VStr prompt |}.

Definition assistant_message (answer : Value) : ChatMessage :=
  {| role := "assistant"; content := answer |}.

(** The chat: what the script does with the prompt of [st.chat_input]. *)
Definition chat (host : Host) (prompt : string) (rag : RAGCore)
    (ready : bool) (msgs : list ChatMessage)
  : option Exception * RAGCore * list ChatMessage * list Notice :=
  if negb ready then
    (None, rag, msgs,
     [Warning "Please ingest documents before asking questions."])
  else
    let msgs := msgs ++ [user_message prompt] in
    let o := Rag.ask_question (lib host) (context_first host) prompt rag in
    match value o with
    | inl e => (Some e, after o, msgs, [])
    | inr response =>
        let answer :=
          default (VStr "Sorry, I could not find an answer.")
            (response !! "answer") in
        (None, after o, msgs ++ [assistant_message answer], [])
    end.

(** One run of the script, top to bottom. *)
Definition script (host : Host) (inputs : Inputs) (s : SessionState) : Run :=
  if negb (token_set host) then
    {| raised := None; session := s;
       notices :=
         [Error "Hugging Face API token is not set! Please create a .env file with HUGGINGFACEHUB_API_TOKEN='your_token'."] |}
  else
    let s := initialize_session_state host s in
    match rag_core s, chain_ready s, messages s with
    | Some rag, Some ready, Some msgs =>
        match sidebar host inputs rag ready with
        | (Some e, rag, ready, shown) =>
            {| raised := Some e;
               session :=
                 {| rag_core := Some rag; chain_ready := Some ready;
                    messages := Some msgs |};
               notices := shown |}
        | (None, rag, ready, shown) =>
            match chat_input inputs with
            | None | Some EmptyString =>
                {| raised := None;
                   session :=
                     {| rag_core := Some rag; chain_ready := Some ready;
                        messages := Some msgs |};
                   notices := shown |}
            | Some prompt =>
                let '(e, rag, msgs, shown') :=
                  chat host prompt rag ready msgs in
                {| raised := e;
                   session :=
                     {| rag_core := Some rag; chain_ready := Some ready;
                        messages := Some msgs |};
                   notices := shown ++ shown' |}
            end
        end
    | _, _, _ =>
        {| raised := Some (AttributeError "st.session_state has no such key");
           session := s; notices := [] |}
    end.

(** The session states of a browser session: those that runs of the script
    lead to, whatever each run finds around it and is given. *)
Inductive reachable : SessionState -> Prop :=
| reach_new : reachable new_session
| reach_run (host : Host) (inputs : Inputs) (s : SessionState) :
    reachable s -> reachable (session (script host inputs s)).

(** The chat entries of question and answer pairs, in order. *)
Definition transcript (pairs : list (string * Value)) : list ChatMessage :=
  flat_map (fun qa => [user_message (fst qa); assistant_message (snd qa)])
    pairs.

(** A message of the memory as the chat shows it. *)
Definition shown_as (m : Message) : ChatMessage :=
  match m with
  | SystemMessage text => {| role := "system"; content := VStr text |}
  | HumanMessage text => user_message text
  | AIMessage text => assistant_message (VStr text)
  end.

(** What holds of the session state after a first run: the three keys are
    there, the core is an object a session can hold, the ready flag is set
    where a chain is, the chat is a sequence of questions and answers, and
    what the memory holds was shown in the chat, in that order. *)
Inductive healthy : SessionState -> Prop :=
| healthy_intro (rag : RAGCore) (ready : bool) (msgs : list ChatMessage) :
    Rag.reachable rag ->
    (is_Some (qa_chain rag) -> ready = true) ->
    (exists pairs, msgs = transcript pairs) ->
    map shown_as (memory rag) `sublist_of` msgs ->
    healthy {| rag_core := Some rag; chain_ready := Some ready;
               messages := Some msgs |}.

End App.

(** ** A small host for the script *)

Module ToyApp.

(** Decoding as UTF-8, for a disk whose only undecodable content is
    "<binary>". *)
Definition decode (data : string) : Result string :=
  if String.eqb data "<binary>" then raise UnicodeDecodeError else ok data.

(** A disk in memory: [makedirs] adds an empty directory, [write_file] adds
    the file to the listing of the temporary directory. *)
Definition makedirs (fs : FileSystem) (dir : string) : FileSystem :=
  {| path_exists := fun p => String.eqb p dir || path_exists fs p;
     listdir := fun d => if String.eqb d dir then ok [] else listdir fs d;
     read_utf8 := read_utf8 fs;
     fitz_open := fitz_open fs |}.

Definition write_file (fs : FileSystem) (path data : string) : FileSystem :=
  {| path_exists := fun p => String.eqb p path || path_exists fs p;
     listdir := fun d =>
       if String.eqb d App.TEMP_DIR then
         match listdir fs d with
         | inr names => ok (names ++ [Path.basename path])
         | inl _ => ok [Path.basename path]
         end
       else listdir fs d;
     read_utf8 := fun p =>
       if String.eqb p path then decode data else read_utf8 fs p;
     fitz_open := fun p =>
       if String.eqb p path then raise FileDataError else fitz_open fs p |}.

Definition host : App.Host :=
  {| App.token_set := true;
     App.disk := Toy.fs;
     App.makedirs := makedirs;
     App.write_file := write_file;
     App.web := Toy.web;
     App.lib := Toy.lib;
     App.context_first := true |}.

(** A text file and the page that is served. *)
Definition ingest_inputs : App.Inputs :=
  {| App.uploaded_files :=
       [ {| App.name := "readme.txt"; App.getbuffer := "read me" |} ];
     App.url_to_scrape := "http://docs.example/";
     App.ingest_button := true;
     App.chat_input := None |}.

(** A markdown file and a text file that is not UTF-8. *)
Definition broken_inputs : App.Inputs :=
  {| App.uploaded_files :=
       [ {| App.name := "notes.md"; App.getbuffer := "# Notes" |};
         {| App.name := "broken.txt"; App.getbuffer := "<binary>" |} ];
     App.url_to_scrape := "";
     App.ingest_button := true;
     App.chat_input := None |}.

(** A text file with nothing in it. *)
Definition blank_inputs : App.Inputs :=
  {| App.uploaded_files :=
       [ {| App.name := "empty.txt"; App.getbuffer := "" |} ];
     App.url_to_scrape := "";
     App.ingest_button := true;
     App.chat_input := Some "What is indexed?" |}.

(** The page that is gone. *)
Definition gone_inputs : App.Inputs :=
  {| App.uploaded_files := [];
     App.url_to_scrape := "http://docs.example/gone";
     App.ingest_button := true;
     App.chat_input := None |}.

(** The button pressed with nothing given. *)
Definition bare_inputs : App.Inputs :=
  {| App.uploaded_files := [];
     App.url_to_scrape := "";
     App.ingest_button := true;
     App.chat_input := None |}.

Definition question_inputs : App.Inputs :=
  {| App.uploaded_files := [];
     App.url_to_scrape := "";
     App.ingest_button := false;
     App.chat_input := Some "What is indexed?" |}.

(** A browser session: ingest, then ask. *)
Definition ingested : App.SessionState :=
  App.session (App.script host ingest_inputs App.new_session).

Definition asked : App.SessionState :=
  App.session (App.script host question_inputs ingested).

(** The disk after the two files of [broken_inputs] were written. *)
Definition broken_disk : FileSystem :=
  App.save_uploads host (App.uploaded_files broken_inputs).

End ToyApp.

(** * Properties *)

(** ** Strings and paths *)

Section StringFacts.

Lemma append_empty_r (s : string) : s +:+ "" = s.
Proof.
  induction s as [|c s IH]; [reflexivity|].
  change (String c s +:+ "") with (String c (s +:+ "")). now rewrite IH.
Qed.

Lemma append_assoc (a b c : string) : (a +:+ b) +:+ c = a +:+ b +:+ c.
Proof.
  induction a as [|x a IH]; [reflexivity|].
  change (String x (a +:+ b) +:+ c = String x (a +:+ b +:+ c)).
  change (String x ((a +:+ b) +:+ c) = String x (a +:+ b +:+ c)).
  now rewrite IH.
Qed.

(** [endswith] is true exactly of the strings that end in the suffix. *)
Lemma endswith_spec (s suf : string) :
  Str.endswith s suf = true <-> exists pre, s = pre +:+ suf.
Proof.
  induction s as [|c s IH]; cbn [Str.endswith].
  - rewrite orb_false_r, String.eqb_eq. split.
    + intros <-. now exists "".
    + intros [[|c pre] H]; [exact H|discriminate].
  - rewrite orb_true_iff, String.eqb_eq, IH. split.
    + intros [<- | [pre ->]]; [now exists ""|now exists (String c pre)].
    + intros [[|c' pre] H]; [now left|right].
      injection H as _ ->. now exists pre.
Qed.

Lemma has_sep_append (a b : string) :
  Str.has_sep (a +:+ b) = Str.has_sep a || Str.has_sep b.
Proof.
  induction a as [|c a IH]; [reflexivity|].
  change (Str.has_sep (String c (a +:+ b))
          = Str.has_sep (String c a) || Str.has_sep b).
  simpl. now rewrite IH, orb_assoc.
Qed.

Lemma basename_no_sep (name : string) :
  Str.has_sep name = false -> Path.basename name = name.
Proof.
  destruct name as [|c name]; [reflexivity|]. simpl.
  intros [Hc Hn]%orb_false_elim. now rewrite Hn, Hc.
Qed.

(** After a separator, [basename] only sees what follows it. *)
Lemma basename_after_sep (dir name : string) :
  Str.has_sep name = false ->
  Path.basename (dir +:+ "/" +:+ name) = name.
Proof.
  intros Hn. induction dir as [|c dir IH].
  - change (Path.basename (String "/" name) = name). simpl. now rewrite Hn.
  - change (Path.basename (String c (dir +:+ "/" +:+ name)) = name).
    simpl. rewrite has_sep_append. simpl. rewrite orb_true_r. exact IH.
Qed.

(** The name of a directory entry is the [basename] of its joined path. *)
Lemma basename_join (source_dir filename : string) :
  Str.has_sep filename = false ->
  Path.basename (Path.join source_dir filename) = filename.
Proof.
  intros Hn. unfold Path.join.
  assert (Str.startswith_sep filename = false) as ->.
  { destruct filename as [|c f]; [reflexivity|]. simpl in *.
    now apply orb_false_elim in Hn as [-> _]. }
  destruct (String.eqb source_dir "") eqn:He; simpl.
  - apply String.eqb_eq in He as ->. now apply basename_no_sep.
  - destruct (Str.endswith source_dir "/") eqn:Hs.
    + apply endswith_spec in Hs as [pre ->].
      rewrite append_assoc. now apply basename_after_sep.
    + now apply basename_after_sep.
Qed.

End StringFacts.

(** ** ingest_data.py *)

Section IngestFacts.

Context (fs : FileSystem).

(** The page loop numbers the pages from its start index on. *)
Lemma pdf_pages_from (base : string) (pages : list string) (start : nat) :
  Ingest.pdf_pages base start pages =
  imap (fun i text =>
          {| source := base +:+ " - Page " +:+ pretty (start + i + 1);
             content := text |}) pages.
Proof.
  revert start. induction pages as [|text rest IH]; intros start.
  - reflexivity.
  - cbn [Ingest.pdf_pages]. rewrite imap_cons, IH. f_equal.
    + now rewrite Nat.add_0_r.
    + apply imap_ext. intros i t _. cbn. do 4 f_equal. lia.
Qed.

Lemma pdf_pages_entries (base : string) (pages : list string) :
  Ingest.pdf_pages base 0 pages = Spec.pdf_entries base pages.
Proof. apply pdf_pages_from. Qed.

(** One turn of the directory loop adds what the name contributes. *)
Lemma load_loop_entries (source_dir : string) (names : list string)
    (entries : list (list SourceDoc)) :
  Forall (fun name => Str.has_sep name = false) names ->
  Forall2 (Spec.file_entries fs source_dir) names entries ->
  forall all_docs,
    Ingest.load_loop fs source_dir names all_docs
    = ok (all_docs ++ concat entries).
Proof.
  intros Hsep Hent. induction Hent as [|name ds names entries Hd _ IH].
  - intros all_docs. cbn. now rewrite app_nil_r.
  - intros all_docs. apply Forall_cons in Hsep as [Hname Hsep].
    specialize (IH Hsep). cbn [Ingest.load_loop concat].
    destruct Hd as [pages Hp He Hr | text Hp Hm He Hr
                   | text Hp Hm Ht He Hr | Hp Hm Ht].
    + rewrite Hp. unfold Ingest.parse_pdf. rewrite He, Hr. cbn.
      rewrite IH, basename_join, pdf_pages_entries by exact Hname.
      now rewrite app_assoc.
    + rewrite Hp, Hm. unfold Ingest.parse_markdown. rewrite He, Hr. cbn.
      rewrite IH, basename_join by exact Hname. now rewrite <- app_assoc.
    + rewrite Hp, Hm, Ht. unfold Ingest.parse_text. rewrite He, Hr. cbn.
      rewrite IH, basename_join by exact Hname. now rewrite <- app_assoc.
    + rewrite Hp, Hm, Ht. now rewrite IH.
Qed.

(** C4. [load_documents] on a directory returns, in the order of the
    listing, what the files with a name ending in ".pdf", ".md" or ".txt"
    contain: one entry per page of a PDF, with source
    "<name> - Page <n>", n counting from 1, and one entry for a markdown or
    text file, with the name as source. A file with any other name adds
    nothing. The names are those of a listing (they hold no "/"), and the
    supported files are there and can be read. *)
Theorem load_documents_supported_files (source_dir : string)
    (names : list string) (entries : list (list SourceDoc)) :
  listdir fs source_dir = ok names ->
  Forall (fun name => Str.has_sep name = false) names ->
  Forall2 (Spec.file_entries fs source_dir) names entries ->
  Ingest.load_documents fs source_dir = ok (concat entries).
Proof.
  intros Hl Hsep Hent. unfold Ingest.load_documents. rewrite Hl. cbn.
  now rewrite (load_loop_entries source_dir names entries Hsep Hent []).
Qed.

(** C10. Each of the three parsers returns the empty list, and raises
    nothing, when the path does not exist. *)
Theorem parsers_missing_file (file_path : string) :
  path_exists fs file_path = false ->
  Ingest.parse_pdf fs file_path = ok [] /\
  Ingest.parse_markdown fs file_path = ok [] /\
  Ingest.parse_text fs file_path = ok [].
Proof.
  intros He.
  unfold Ingest.parse_pdf, Ingest.parse_markdown, Ingest.parse_text.
  now rewrite He.
Qed.

End IngestFacts.

Section ScrapeFacts.

Context (web : Web).

Lemma flat_map_flat_map {A B C : Type} (f : B -> list C) (g : A -> list B)
    (l : list A) :
  flat_map f (flat_map g l) = flat_map (fun x => flat_map f (g x)) l.
Proof.
  induction l as [|x l IH]; [reflexivity|].
  cbn. now rewrite flat_map_app, IH.
Qed.

Lemma flat_map_Forall_ext {A B : Type} (f g : A -> list B) (l : list A) :
  Forall (fun x => f x = g x) l -> flat_map f l = flat_map g l.
Proof.
  induction 1 as [|x l Hx _ IH]; [reflexivity|]. cbn. now rewrite Hx, IH.
Qed.

(** The strings left after [decompose] are those that were outside the
    removed elements. *)
Lemma all_strings_decompose (names : list string) (n : Node) :
  forall inside,
    flat_map (Ingest.all_strings inside) (Ingest.decompose names n)
    = Spec.strings_outside names inside n.
Proof.
  induction n as [text|text|text|name children IH] using Node_nested_ind;
    intros inside; [cbn; rewrite ?app_nil_r; reflexivity..|].
  cbn [Ingest.decompose Spec.strings_outside].
  destruct (Ingest.name_in names name); [reflexivity|].
  cbn [flat_map Ingest.all_strings]. rewrite app_nil_r, flat_map_flat_map.
  apply flat_map_Forall_ext.
  rewrite List.Forall_forall in IH. apply List.Forall_forall.
  intros c Hc. now apply IH.
Qed.

Lemma all_strings_decompose_all (names : list string) (soup : list Node) :
  flat_map (Ingest.all_strings false) (Ingest.decompose_all names soup)
  = flat_map (Spec.strings_outside names false) soup.
Proof.
  unfold Ingest.decompose_all. rewrite flat_map_flat_map.
  apply flat_map_Forall_ext, Forall_forall. intros n _.
  apply all_strings_decompose.
Qed.

Lemma forallb_flat_map {A B : Type} (p : B -> bool) (g : A -> list B)
    (l : list A) :
  Forall (fun x => forallb p (g x) = true) l ->
  forallb p (flat_map g l) = true.
Proof.
  induction 1 as [|x l Hx _ IH]; [reflexivity|].
  cbn. now rewrite forallb_app, Hx, IH.
Qed.

(** After [decompose] no element with one of the names is left. *)
Lemma decompose_free_of (names : list string) (n : Node) :
  forallb (Spec.free_of names) (Ingest.decompose names n) = true.
Proof.
  induction n as [text|text|text|name children IH] using Node_nested_ind;
    [reflexivity..|].
  cbn [Ingest.decompose].
  destruct (Ingest.name_in names name) eqn:Hn; [reflexivity|].
  cbn. rewrite Hn. cbn. now rewrite forallb_flat_map.
Qed.

Lemma raise_for_status_error (response : Response) :
  Spec.error_status (status_code response) ->
  Ingest.raise_for_status response
  = raise (RequestException (HTTPError (status_code response))).
Proof.
  intros [Hlo Hhi]. unfold Ingest.raise_for_status.
  apply Nat.leb_le in Hlo. apply Nat.ltb_lt in Hhi. now rewrite Hlo, Hhi.
Qed.

Lemma raise_for_status_pass (response : Response) :
  ~ Spec.error_status (status_code response) ->
  Ingest.raise_for_status response = ok tt.
Proof.
  intros Hn. unfold Ingest.raise_for_status.
  destruct (400 <=? status_code response)%nat eqn:Hlo; [|reflexivity].
  destruct (status_code response <? 600)%nat eqn:Hhi; [|reflexivity].
  exfalso. apply Hn. apply Nat.leb_le in Hlo. apply Nat.ltb_lt in Hhi.
  now split.
Qed.

(** C7, as amended. When the request is answered with a status that is not
    an error status and the parser accepts the markup, [scrape_web_page]
    returns one entry, whose source is the URL and whose content is the
    text of the page outside its script, style, nav, footer and header
    elements. When the request raises a [RequestException] (connection
    error, timeout, ...) or is answered with an error status (4xx or 5xx,
    for which [raise_for_status] raises), it returns the empty list and
    raises nothing. An exception of the parser, which is no
    [RequestException], is not caught. *)
Theorem scrape_web_page_result (url : string) :
  (forall response soup,
      requests_get web url 10 = ok response ->
      ~ Spec.error_status (status_code response) ->
      html_parser web (body response) = ok soup ->
      Ingest.scrape_web_page web url
      = ok [ {| source := url;
                content :=
                  Spec.page_text web
                    (flat_map
                       (Spec.strings_outside
                          ["script"; "style"; "nav"; "footer"; "header"]
                          false)
                       soup) |} ]) /\
  (forall why,
      requests_get web url 10 = raise (RequestException why) ->
      Ingest.scrape_web_page web url = ok []) /\
  (forall response,
      requests_get web url 10 = ok response ->
      Spec.error_status (status_code response) ->
      Ingest.scrape_web_page web url = ok []) /\
  (forall response e,
      requests_get web url 10 = ok response ->
      ~ Spec.error_status (status_code response) ->
      html_parser web (body response) = raise e ->
      (forall why, e <> RequestException why) ->
      Ingest.scrape_web_page web url = raise e).
Proof.
  unfold Ingest.scrape_web_page, Ingest.scrape_try.
  split; [|split; [|split]].
  - intros response soup Hget Hstatus Hparse. rewrite Hget. cbn [rbind ok].
    rewrite raise_for_status_pass by exact Hstatus. cbn [rbind ok].
    rewrite Hparse. cbn [rbind ok].
    unfold Ingest.get_text, Spec.page_text.
    now rewrite all_strings_decompose_all.
  - intros why Hget. now rewrite Hget.
  - intros response Hget Hstatus. rewrite Hget. cbn [rbind ok].
    now rewrite raise_for_status_error by exact Hstatus.
  - intros response e Hget Hstatus Hparse He. rewrite Hget. cbn [rbind ok].
    rewrite raise_for_status_pass by exact Hstatus. cbn [rbind ok].
    rewrite Hparse. cbn [rbind raise].
    destruct e; try reflexivity. now destruct (He why).
Qed.

End ScrapeFacts.

(** ** rag_core.py *)

Section RagFacts.

Context (lib : Libs).

(** Unfolds the plumbing of [Method] in the goal. *)
Ltac run_method :=
  unfold mbind, mret, Method_bind, Method_ret, method_bind, method_ret,
    method_raise, emit, get_self, set_memory, set_vector_store,
    set_retriever, ok, raise;
  cbv beta iota.

(** Runs a method as far as the two attributes it reads are known. *)
Ltac run_method_with Hchain Hretr :=
  run_method;
  repeat (first [rewrite Hchain | rewrite Hretr]; cbv beta iota).

(** What [ask_question] does on an object whose chain and retriever are
    both set. *)
Lemma ask_question_ready (context_first : bool) (question : string)
    (self : RAGCore) (chain : QAChain) (r : Retriever) :
  qa_chain self = Some chain ->
  retriever self = Some r ->
  let found :=
    similarity_search lib ForSources (vectorstore r) question (search_k r) in
  let docs :=
    similarity_search lib ForContext (vectorstore r) question (search_k r) in
  let prompt :=
    Rag.RAG_PROMPT (Rag._format_docs docs) (str_messages lib (memory self))
      question in
  let answer := chat_invoke lib (chain_llm chain) prompt in
  Rag.ask_question lib context_first question self =
  {| value :=
       ok (<[ "source_documents" := VDocs found ]>
             {[ "answer" := VStr answer ]});
     after :=
       {| vector_store := vector_store self; qa_chain := qa_chain self;
          retriever := retriever self;
          memory := memory self ++ [HumanMessage question; AIMessage answer];
          embedding_function := embedding_function self; llm := llm self |};
     trace :=
       RetrieverInvoked r question found ::
       Spec.input_events context_first r question docs (memory self) ++
       [ PromptAssembled prompt;
         ModelInvoked (chain_llm chain) prompt answer;
         ContextSaved question answer ] |}.
Proof.
  intros Hchain Hretr found docs prompt answer.
  unfold Rag.ask_question, Rag.chain_invoke, Rag.input_steps,
    Rag.context_step, Rag.get_chat_history, Rag.save_context,
    Rag.retriever_invoke, Spec.input_events.
  destruct context_first; run_method_with Hchain Hretr; reflexivity.
Qed.

(** Without a chain [ask_question] answers at once. *)
Lemma ask_question_no_chain (context_first : bool) (question : string)
    (self : RAGCore) :
  qa_chain self = None ->
  Rag.ask_question lib context_first question self =
  {| value := ok {[ "answer" := VStr "The QA system is not initialized." ]};
     after := self;
     trace := [] |}.
Proof.
  intros Hchain. unfold Rag.ask_question. run_method.
  rewrite Hchain. reflexivity.
Qed.

(** With a chain but no retriever the first retrieval raises. *)
Lemma ask_question_no_retriever (context_first : bool) (question : string)
    (self : RAGCore) (chain : QAChain) :
  qa_chain self = Some chain ->
  retriever self = None ->
  after (Rag.ask_question lib context_first question self) = self.
Proof.
  intros Hchain Hretr. unfold Rag.ask_question, Rag.retriever_invoke.
  run_method_with Hchain Hretr. reflexivity.
Qed.

(** [ask_question] writes to the memory only. *)
Lemma ask_question_frame (context_first : bool) (question : string)
    (self : RAGCore) :
  let self' := after (Rag.ask_question lib context_first question self) in
  vector_store self' = vector_store self /\
  qa_chain self' = qa_chain self /\
  retriever self' = retriever self.
Proof.
  destruct (qa_chain self) as [chain|] eqn:Hchain.
  - destruct (retriever self) as [r|] eqn:Hretr.
    + rewrite (ask_question_ready _ _ _ chain r Hchain Hretr). cbn.
      now rewrite Hchain, Hretr.
    + rewrite (ask_question_no_retriever _ _ _ chain Hchain Hretr). cbn.
      now rewrite Hchain, Hretr.
  - rewrite (ask_question_no_chain _ _ _ Hchain). cbn.
    now rewrite Hchain.
Qed.

(** [ingest_documents] with nothing to ingest returns at once. *)
Lemma ingest_documents_empty (self : RAGCore) :
  Rag.ingest_documents lib [] self
  = {| value := ok tt; after := self; trace := [] |}.
Proof. reflexivity. Qed.

(** [ingest_documents] with documents that give at least one chunk sets the
    store that [Chroma.from_documents] returns for the chunks, and its
    retriever. *)
Lemma ingest_documents_built (docs : list SourceDoc) (self : RAGCore) :
  docs <> [] ->
  Rag.split_documents lib 1000 200 (map Rag.to_document docs) <> [] ->
  Rag.ingest_documents lib docs self =
  let vs :=
    Chroma_from_documents
      (Rag.split_documents lib 1000 200 (map Rag.to_document docs))
      (embedding_function self) Rag.VECTORSTORE_DIR in
  {| value := ok tt;
     after :=
       {| vector_store := Some vs; qa_chain := qa_chain self;
          retriever := Some (as_retriever vs 4); memory := memory self;
          embedding_function := embedding_function self; llm := llm self |};
     trace := [] |}.
Proof.
  intros Hdocs Hchunks. destruct docs as [|doc docs]; [contradiction|].
  unfold Rag.ingest_documents, Rag.from_documents.
  destruct (Rag.split_documents lib 1000 200
              (map Rag.to_document (doc :: docs))) as [|chunk chunks];
    [contradiction|].
  reflexivity.
Qed.

(** [ingest_documents] with documents that give no chunk raises and leaves
    the object as it was. *)
Lemma ingest_documents_no_chunk (docs : list SourceDoc) (self : RAGCore) :
  docs <> [] ->
  Rag.split_documents lib 1000 200 (map Rag.to_document docs) = [] ->
  Rag.ingest_documents lib docs self
  = {| value := raise ValueError; after := self; trace := [] |}.
Proof.
  intros Hdocs Hchunks. destruct docs as [|doc docs]; [contradiction|].
  unfold Rag.ingest_documents, Rag.from_documents. now rewrite Hchunks.
Qed.

(** What [ingest_documents] leaves: the object as it was, or the object
    with a store and the retriever of that store for 4 neighbours. *)
Lemma ingest_documents_cases (docs : list SourceDoc) (self : RAGCore) :
  after (Rag.ingest_documents lib docs self) = self \/
  exists vs,
    value (Rag.ingest_documents lib docs self) = ok tt /\
    vs = Chroma_from_documents
           (Rag.split_documents lib 1000 200 (map Rag.to_document docs))
           (embedding_function self) Rag.VECTORSTORE_DIR /\
    after (Rag.ingest_documents lib docs self)
    = {| vector_store := Some vs; qa_chain := qa_chain self;
         retriever := Some (as_retriever vs 4); memory := memory self;
         embedding_function := embedding_function self; llm := llm self |}.
Proof.
  destruct docs as [|doc docs]; [now left|].
  destruct (Rag.split_documents lib 1000 200
              (map Rag.to_document (doc :: docs))) as [|chunk chunks] eqn:Hc.
  - left. now rewrite ingest_documents_no_chunk.
  - right. eexists. rewrite ingest_documents_built; [|discriminate|].
    + cbv zeta. rewrite Hc. now repeat split.
    + rewrite Hc. discriminate.
Qed.

(** [ingest_documents] raises only the [ValueError] of
    [Chroma.from_documents], for documents that give no chunk, and then
    leaves the object as it was. *)
Lemma ingest_documents_raises (docs : list SourceDoc) (self : RAGCore)
    (e : Exception) :
  value (Rag.ingest_documents lib docs self) = raise e ->
  e = ValueError /\
  docs <> [] /\
  Rag.split_documents lib 1000 200 (map Rag.to_document docs) = [] /\
  after (Rag.ingest_documents lib docs self) = self.
Proof.
  destruct docs as [|doc docs]; [discriminate|].
  destruct (Rag.split_documents lib 1000 200
              (map Rag.to_document (doc :: docs))) as [|chunk chunks] eqn:Hc.
  - rewrite ingest_documents_no_chunk by (assumption || discriminate).
    cbn [value after]. intros [= <-]. now repeat split.
  - rewrite ingest_documents_built by (rewrite ?Hc; discriminate).
    discriminate.
Qed.

(** [ingest_documents] leaves the memory, the chain and the models as they
    are. *)
Lemma ingest_documents_keeps (docs : list SourceDoc) (self : RAGCore) :
  let self' := after (Rag.ingest_documents lib docs self) in
  memory self' = memory self /\ qa_chain self' = qa_chain self /\
  llm self' = llm self /\ embedding_function self' = embedding_function self.
Proof.
  destruct (ingest_documents_cases docs self) as [-> | (vs & _ & _ & ->)];
    now repeat split.
Qed.

End RagFacts.

Section SessionFacts.

(** Every object a session can hold satisfies the invariant. *)
Lemma reachable_invariant (self : RAGCore) :
  Rag.reachable self -> Spec.session_invariant self.
Proof.
  induction 1 as [ | dir_exists self _ IH | lib docs self _ IH
                 | self _ IH | lib cf question self _ IH ].
  - split; cbn; intros ? H; discriminate H.
  - destruct dir_exists; [|exact IH].
    split; cbn [Rag.load_existing_vectorstore snd qa_chain retriever
                vector_store].
    + intros chain _. discriminate.
    + intros r [= <-]. now split.
  - destruct (ingest_documents_cases lib docs self)
      as [-> | (vs & _ & _ & ->)]; [exact IH|].
    split; cbn [qa_chain retriever vector_store].
    + intros chain _. discriminate.
    + intros r [= <-]. now split.
  - unfold Rag.setup_qa_chain.
    destruct (retriever self) as [r|] eqn:Hretr; [|exact IH].
    destruct IH as [_ IHr].
    split; cbn [qa_chain retriever vector_store].
    + intros chain _. discriminate.
    + intros r' [= <-]. apply IHr, Hretr.
  - destruct IH as [IHc IHr].
    destruct (ask_question_frame lib cf question self) as (Hv & Hc & Hr).
    split.
    + intros chain. rewrite Hc, Hr. apply IHc.
    + intros r. rewrite Hr, Hv. apply IHr.
Qed.

(** Where the chain is set up, the retriever is there. *)
Lemma reachable_chain_retriever (self : RAGCore) (chain : QAChain) :
  Rag.reachable self -> qa_chain self = Some chain ->
  exists r, retriever self = Some r /\ search_k r = 4.
Proof.
  intros [Hc Hr]%reachable_invariant Hchain.
  destruct (retriever self) as [r|] eqn:Hretr.
  - exists r. split; [reflexivity|]. now apply Hr.
  - now destruct (Hc chain Hchain).
Qed.

End SessionFacts.

Section RagClaims.

Context (lib : Libs).

(** C1. When the chain is set up, a call of [ask_question] retrieves the
    passages for the question, assembles the prompt from the retrieved
    context, the stored chat history and the question, invokes the model on
    that prompt, and only then saves the question and the answer to the
    memory: the history in the prompt is the memory as it was before the
    call, and the memory afterwards is that history followed by the new
    exchange. *)
Theorem ask_question_pipeline_order (context_first : bool)
    (question : string) (self : RAGCore) (chain : QAChain) :
  Rag.reachable self ->
  qa_chain self = Some chain ->
  exists r found docs prompt answer,
    retriever self = Some r /\
    found = similarity_search lib ForSources (vectorstore r) question
              (search_k r) /\
    docs = similarity_search lib ForContext (vectorstore r) question
             (search_k r) /\
    prompt = Rag.RAG_PROMPT (Rag._format_docs docs)
               (str_messages lib (memory self)) question /\
    answer = chat_invoke lib (chain_llm chain) prompt /\
    trace (Rag.ask_question lib context_first question self) =
      RetrieverInvoked r question found ::
      Spec.input_events context_first r question docs (memory self) ++
      [ PromptAssembled prompt;
        ModelInvoked (chain_llm chain) prompt answer;
        ContextSaved question answer ] /\
    memory (after (Rag.ask_question lib context_first question self)) =
      memory self ++ [HumanMessage question; AIMessage answer].
Proof.
  intros Hreach Hchain.
  destruct (reachable_chain_retriever self chain Hreach Hchain)
    as (r & Hretr & _).
  exists r. eexists. eexists. eexists. eexists.
  split; [exact Hretr|]. split; [reflexivity|]. split; [reflexivity|].
  split; [reflexivity|]. split; [reflexivity|].
  rewrite (ask_question_ready lib context_first question self chain r
             Hchain Hretr).
  now split.
Qed.

(** C2. When the chain is set up, the prompt the model is invoked on has
    the documents retrieved for the context as its CONTEXT, each one as
    "Source: <source>", a line feed and "Content: <content>", the messages
    of the memory as its CHAT HISTORY and the question as it was asked as
    its QUESTION; the answer returned is the model's reply to that prompt. *)
Theorem ask_question_prompt_fields (context_first : bool)
    (question : string) (self : RAGCore) (chain : QAChain) :
  Rag.reachable self ->
  qa_chain self = Some chain ->
  exists r,
    retriever self = Some r /\
    let docs :=
      similarity_search lib ForContext (vectorstore r) question
        (search_k r) in
    let context :=
      Str.join (LF +:+ LF)
        (map (fun doc =>
                "Source: " +:+ default "Unknown" (metadata doc !! "source")
                +:+ LF +:+ "Content: " +:+ page_content doc) docs) in
    let prompt :=
      [ SystemMessage Rag.SYSTEM_TEXT;
        HumanMessage
          ("CONTEXT:" +:+ LF +:+ context +:+ LF +:+ LF +:+
           "CHAT HISTORY:" +:+ LF +:+ str_messages lib (memory self)
           +:+ LF +:+ LF +:+
           "QUESTION:" +:+ LF +:+ question +:+ LF +:+ LF +:+ "ANSWER:") ] in
    let o := Rag.ask_question lib context_first question self in
    (forall model p reply,
        In (ModelInvoked model p reply) (trace o) ->
        model = chain_llm chain /\ p = prompt /\
        reply = chat_invoke lib model prompt) /\
    In (ModelInvoked (chain_llm chain) prompt
          (chat_invoke lib (chain_llm chain) prompt)) (trace o) /\
    exists response,
      value o = ok response /\
      response !! "answer"
      = Some (VStr (chat_invoke lib (chain_llm chain) prompt)).
Proof.
  intros Hreach Hchain.
  destruct (reachable_chain_retriever self chain Hreach Hchain)
    as (r & Hretr & _).
  exists r. split; [exact Hretr|]. intros docs context prompt o.
  subst o.
  rewrite (ask_question_ready lib context_first question self chain r
             Hchain Hretr).
  cbn [value trace]. split; [|split].
  - intros model p reply Hin.
    destruct context_first; cbn in Hin;
      repeat (destruct Hin as [Hin|Hin]; [try discriminate Hin|]);
      try contradiction; injection Hin as <- <- <-; now repeat split.
  - destruct context_first; cbn; auto 10.
  - eexists. split; [reflexivity|].
    rewrite lookup_insert_ne by discriminate.
    apply lookup_singleton_eq.
Qed.


(** The pieces of the documents, document by document. *)
Lemma split_documents_pieces (size overlap : nat) (docs : list SourceDoc) :
  Rag.split_documents lib size overlap (map Rag.to_document docs) =
  flat_map
    (fun doc =>
       map (fun piece =>
              {| page_content := piece;
                 metadata := {[ "source" := source doc ]} |})
         (split_text lib size overlap (content doc)))
    docs.
Proof.
  unfold Rag.split_documents.
  induction docs as [|doc docs IH]; [reflexivity|].
  cbn [map flat_map]. now rewrite IH.
Qed.

(** C5. [ingest_documents] hands to the vector store, instead of the source
    documents, the pieces the splitter cuts them into with chunk size 1000
    and chunk overlap 200, each with the source of its document: where
    there is a piece, the store is built from exactly the pieces, and where
    there is none, nothing is embedded and the call raises. With a splitter
    that keeps to its chunk size and chunk overlap, no piece is longer than
    1000 characters, and a piece and the next piece of the same document
    share at most 200 characters of it. *)
Theorem ingest_documents_chunks (docs : list SourceDoc) (self : RAGCore) :
  Spec.respects_chunk_size lib ->
  Spec.respects_chunk_overlap lib ->
  docs <> [] ->
  exists chunks,
    chunks =
      flat_map
        (fun doc =>
           map (fun piece =>
                  {| page_content := piece;
                     metadata := {[ "source" := source doc ]} |})
             (split_text lib 1000 200 (content doc)))
        docs /\
    (chunks <> [] ->
     vector_store (after (Rag.ingest_documents lib docs self))
     = Some (Chroma_from_documents chunks (embedding_function self)
               "vectorstore")) /\
    (chunks = [] ->
     Rag.ingest_documents lib docs self
     = {| value := raise ValueError; after := self; trace := [] |}) /\
    Forall (fun chunk => String.length (page_content chunk) <= 1000) chunks /\
    (forall doc before a b rest,
        In doc docs ->
        split_text lib 1000 200 (content doc) = before ++ a :: b :: rest ->
        Spec.overlap_at_most 200 (content doc) a b).
Proof.
  intros Hsize Hoverlap Hdocs.
  eexists. split; [reflexivity|].
  rewrite <- split_documents_pieces. split; [|split; [|split]].
  - intros Hchunks.
    now rewrite (ingest_documents_built lib docs self Hdocs Hchunks).
  - intros Hchunks.
    now rewrite (ingest_documents_no_chunk lib docs self Hdocs Hchunks).
  - rewrite split_documents_pieces. apply List.Forall_forall.
    intros chunk (doc & _ & Hin)%in_flat_map.
    apply in_map_iff in Hin as (piece & <- & Hpiece). cbn.
    apply (Hsize 1000 200 (content doc) piece); [lia|exact Hpiece].
  - intros doc before a b rest _ Hsplit.
    apply (Hoverlap 1000 200 (content doc) before a b rest); [lia|exact Hsplit].
Qed.

(** C6. Every retriever is built to ask for 4 neighbours: the one
    [load_existing_vectorstore] builds, the one [ingest_documents] builds
    (a call that raises builds none and leaves the retriever that was
    there), and so the one of every object a session can hold. With a store
    that returns at most as many documents as it is asked for, the
    [source_documents] that [ask_question] returns are at most 4. *)
Theorem retrievers_ask_for_4 (self : RAGCore) :
  Rag.reachable self ->
  (forall other r,
      retriever (snd (Rag.load_existing_vectorstore true other)) = Some r ->
      search_k r = 4) /\
  (forall other docs r,
      docs <> [] ->
      retriever (after (Rag.ingest_documents lib docs other)) = Some r ->
      search_k r = 4 \/
      (value (Rag.ingest_documents lib docs other) = raise ValueError /\
       retriever other = Some r)) /\
  (forall r, retriever self = Some r -> search_k r = 4) /\
  (Spec.limits_results lib ->
   forall context_first question response docs,
     value (Rag.ask_question lib context_first question self) = ok response ->
     response !! "source_documents" = Some (VDocs docs) ->
     length docs <= 4).
Proof.
  intros Hreach.
  split; [|split; [|split]].
  - cbn. now intros other r [= <-].
  - intros other docs r Hdocs.
    destruct (Rag.split_documents lib 1000 200 (map Rag.to_document docs))
      as [|chunk chunks] eqn:Hchunks.
    + rewrite (ingest_documents_no_chunk lib docs other Hdocs Hchunks).
      cbn [value after]. intros Hr. right. now split.
    + rewrite (ingest_documents_built lib docs other Hdocs)
        by (rewrite Hchunks; discriminate).
      cbn. intros [= <-]. now left.
  - intros r Hr. now apply (reachable_invariant self Hreach).
  - intros Hlimit cf question response docs Hval Hdocs.
    destruct (qa_chain self) as [chain|] eqn:Hchain.
    + destruct (reachable_chain_retriever self chain Hreach Hchain)
        as (r & Hretr & Hk).
      rewrite (ask_question_ready lib cf question self chain r Hchain Hretr)
        in Hval.
      cbn in Hval. injection Hval as <-.
      rewrite lookup_insert_eq in Hdocs. injection Hdocs as <-.
      rewrite Hk. apply Hlimit.
    + rewrite (ask_question_no_chain lib cf question self Hchain) in Hval.
      cbn in Hval. injection Hval as <-.
      rewrite lookup_singleton_ne in Hdocs by discriminate.
      discriminate Hdocs.
Qed.

(** C8. Without a chain, [ask_question] returns the dictionary with the one
    key "answer", whose value is "The QA system is not initialized.": it
    has no key "source_documents". The object, and so its memory, is as
    before, and nothing was retrieved, asked or saved. *)
Theorem ask_question_not_initialized (context_first : bool)
    (question : string) (self : RAGCore) :
  qa_chain self = None ->
  let o := Rag.ask_question lib context_first question self in
  value o = ok {[ "answer" := VStr "The QA system is not initialized." ]} /\
  (forall response,
      value o = ok response ->
      response !! "source_documents" = None /\
      dom response = {[ "answer" ]}) /\
  memory (after o) = memory self /\
  after o = self /\
  trace o = [].
Proof.
  intros Hchain o. subst o.
  rewrite (ask_question_no_chain lib context_first question self Hchain).
  cbn [value after trace]. split; [reflexivity|]. split; [|easy].
  intros response [= <-]. split.
  - now apply lookup_singleton_ne.
  - apply dom_singleton_L.
Qed.

(** C9, as amended. [ingest_documents] with the empty list returns at once
    and leaves the object as it was: vector store, retriever and memory.
    With a list that is not empty and gives at least one chunk it sets the
    vector store to the store object that [Chroma.from_documents] returns
    for the chunks and the retriever to the retriever of that store for 4
    neighbours, and leaves the memory as it was. Where the documents give
    no chunk, [Chroma.from_documents] raises [ValueError] and store,
    retriever and memory are as before. *)
Theorem ingest_documents_frame (docs : list SourceDoc) (self : RAGCore) :
  Rag.ingest_documents lib [] self
  = {| value := ok tt; after := self; trace := [] |} /\
  (docs <> [] ->
   let o := Rag.ingest_documents lib docs self in
   let chunks :=
     Rag.split_documents lib 1000 200 (map Rag.to_document docs) in
   let vs :=
     Chroma_from_documents chunks (embedding_function self)
       Rag.VECTORSTORE_DIR in
   (chunks <> [] ->
    value o = ok tt /\
    vector_store (after o) = Some vs /\
    retriever (after o) = Some (as_retriever vs 4) /\
    memory (after o) = memory self) /\
   (chunks = [] ->
    value o = raise ValueError /\
    after o = self)).
Proof.
  split; [reflexivity|]. intros Hdocs o chunks vs. subst o chunks vs.
  split; intros Hchunks.
  - now rewrite (ingest_documents_built lib docs self Hdocs Hchunks).
  - now rewrite (ingest_documents_no_chunk lib docs self Hdocs Hchunks).
Qed.

End RagClaims.

(** ** The properties on the small instances *)

Section ToyFacts.

Lemma length_substring_le (n m : nat) (s : string) :
  String.length (substring n m s) <= m.
Proof.
  revert n m. induction s as [|c s IH]; intros [|n] [|m]; cbn; try lia.
  - specialize (IH 0 m). lia.
  - apply IH.
  - apply IH.
Qed.

Lemma substring_occurs_at (n m : nat) (s : string) :
  Spec.occurs_at s (substring n m s) n.
Proof.
  unfold Spec.occurs_at. revert n m.
  induction s as [|c s IH]; intros [|n] [|m]; cbn; try reflexivity.
  - now rewrite IH.
  - apply IH.
  - apply IH.
Qed.

Lemma windows_In (fuel start size step : nat) (text piece : string) :
  In piece (Toy.windows fuel start size step text) ->
  exists s, piece = substring s size text.
Proof.
  revert start. induction fuel as [|fuel IH]; intros start; [easy|].
  cbn [Toy.windows].
  destruct (String.length text <=? start + size)%nat.
  - intros [<- | []]. eauto.
  - intros [<- | Hin]; [eauto|]. now apply (IH (start + step)).
Qed.

Lemma windows_head (fuel start size step : nat) (text b : string)
    (rest : list string) :
  Toy.windows fuel start size step text = b :: rest ->
  b = substring start size text.
Proof.
  destruct fuel as [|fuel]; [discriminate|]. cbn [Toy.windows].
  destruct (String.length text <=? start + size)%nat; now intros [= <- _].
Qed.

(** A window and the next one start [step] characters apart. *)
Lemma windows_consecutive (fuel start size step : nat) (text a b : string)
    (before rest : list string) :
  Toy.windows fuel start size step text = before ++ a :: b :: rest ->
  exists s, a = substring s size text /\ b = substring (s + step) size text.
Proof.
  revert start before. induction fuel as [|fuel IH]; intros start before.
  - destruct before; discriminate.
  - cbn [Toy.windows].
    destruct (String.length text <=? start + size)%nat.
    + destruct before as [|x [|y before]]; discriminate.
    + destruct before as [|x before].
      * intros [= <- Hrest]. exists start. split; [reflexivity|].
        now apply windows_head in Hrest.
      * intros [= _ Hrest]. now apply (IH (start + step) before).
Qed.

Lemma toy_split_size (size overlap : nat) (text piece : string) :
  In piece (Toy.split_windows size overlap text) ->
  String.length piece <= size.
Proof.
  unfold Toy.split_windows.
  destruct (String.eqb text ""); [easy|].
  destruct (String.length text <=? size)%nat eqn:Hlen.
  - intros [<- | []]. now apply Nat.leb_le.
  - intros (s & ->)%windows_In. apply length_substring_le.
Qed.

Lemma toy_split_overlap (size overlap : nat) (text a b : string)
    (before rest : list string) :
  overlap <= size ->
  Toy.split_windows size overlap text = before ++ a :: b :: rest ->
  Spec.overlap_at_most overlap text a b.
Proof.
  intros Hov. unfold Toy.split_windows.
  destruct (String.eqb text ""); [destruct before; discriminate|].
  destruct (String.length text <=? size)%nat.
  - destruct before as [|x [|y before]]; discriminate.
  - intros (s & -> & ->)%windows_consecutive.
    exists s, (s + (size - overlap)). split; [lia|].
    split; [apply substring_occurs_at|].
    split; [apply substring_occurs_at|].
    pose proof (length_substring_le s size text). lia.
Qed.

Lemma toy_respects_chunk_size : Spec.respects_chunk_size Toy.lib.
Proof.
  intros size overlap text piece _. apply toy_split_size.
Qed.

Lemma toy_respects_chunk_overlap : Spec.respects_chunk_overlap Toy.lib.
Proof.
  intros size overlap text before a b rest Hov. now apply toy_split_overlap.
Qed.

Lemma toy_limits_results : Spec.limits_results Toy.lib.
Proof. intros which vs query k. cbn. apply List.firstn_le_length. Qed.

Lemma toy_ready_reachable : Rag.reachable Toy.ready.
Proof. apply Rag.reach_setup, Rag.reach_ingest, Rag.reach_init. Qed.

End ToyFacts.

Section Witnesses.

(** The directory "docs" of the small file system: a PDF of two pages, an
    image, a markdown file and a text file. *)
Lemma load_documents_supported_files_witness :
  listdir Toy.fs "docs" = ok ["a.pdf"; "logo.png"; "notes.md"; "readme.txt"] /\
  Forall (fun name => Str.has_sep name = false)
    ["a.pdf"; "logo.png"; "notes.md"; "readme.txt"] /\
  Forall2 (Spec.file_entries Toy.fs "docs")
    ["a.pdf"; "logo.png"; "notes.md"; "readme.txt"]
    [ Spec.pdf_entries "a.pdf" ["first page"; "second page"];
      [];
      [ {| source := "notes.md"; content := "# Notes" |} ];
      [ {| source := "readme.txt"; content := "read me" |} ] ] /\
  Ingest.load_documents Toy.fs "docs" =
  ok [ {| source := "a.pdf - Page 1"; content := "first page" |};
       {| source := "a.pdf - Page 2"; content := "second page" |};
       {| source := "notes.md"; content := "# Notes" |};
       {| source := "readme.txt"; content := "read me" |} ].
Proof.
  assert (Forall (fun name => Str.has_sep name = false)
            ["a.pdf"; "logo.png"; "notes.md"; "readme.txt"]) as Hsep.
  { repeat constructor. }
  assert (Forall2 (Spec.file_entries Toy.fs "docs")
            ["a.pdf"; "logo.png"; "notes.md"; "readme.txt"]
            [ Spec.pdf_entries "a.pdf" ["first page"; "second page"];
              [];
              [ {| source := "notes.md"; content := "# Notes" |} ];
              [ {| source := "readme.txt"; content := "read me" |} ] ])
    as Hent.
  { constructor; [now apply Spec.entries_pdf|].
    constructor; [now apply Spec.entries_skipped|].
    constructor; [now apply Spec.entries_markdown|].
    constructor; [now apply Spec.entries_text|]. constructor. }
  split; [reflexivity|]. split; [exact Hsep|]. split; [exact Hent|].
  exact (load_documents_supported_files Toy.fs "docs" _ _ eq_refl Hsep Hent).
Defined.

(** A path that is not in the small file system. *)
Lemma parsers_missing_file_witness :
  path_exists Toy.fs "docs/missing.md" = false /\
  Ingest.parse_pdf Toy.fs "docs/missing.md" = ok [] /\
  Ingest.parse_markdown Toy.fs "docs/missing.md" = ok [] /\
  Ingest.parse_text Toy.fs "docs/missing.md" = ok [].
Proof.
  split; [reflexivity|].
  exact (parsers_missing_file Toy.fs "docs/missing.md" eq_refl).
Defined.

(** A page that is served, a page that is gone, a host that does not
    answer in time, and a page whose markup the parser rejects. *)
Lemma scrape_web_page_result_witness :
  Ingest.scrape_web_page Toy.web "http://docs.example/"
  = ok [ {| source := "http://docs.example/";
            content := "Vector stores" +:+ LF +:+ "index text" |} ] /\
  Ingest.scrape_web_page Toy.web "http://docs.example/gone" = ok [] /\
  Ingest.scrape_web_page Toy.web "http://docs.example/slow" = ok [] /\
  Ingest.scrape_web_page Toy.web "http://docs.example/broken"
  = raise ParserRejectedMarkup.
Proof.
  split; [|split; [|split]].
  - apply (proj1 (scrape_web_page_result Toy.web "http://docs.example/")
             (mkResponse 200 "<html>") Toy.page eq_refl);
      [|reflexivity].
    unfold Spec.error_status. cbn. lia.
  - apply (proj1 (proj2 (proj2 (scrape_web_page_result Toy.web
                                  "http://docs.example/gone")))
             (mkResponse 404 "") eq_refl).
    unfold Spec.error_status. cbn. lia.
  - exact (proj1 (proj2 (scrape_web_page_result Toy.web
                           "http://docs.example/slow"))
             Timeout eq_refl).
  - apply (proj2 (proj2 (proj2 (scrape_web_page_result Toy.web
                                  "http://docs.example/broken")))
             (mkResponse 200 "<![spam[x]]>") ParserRejectedMarkup eq_refl);
      [|reflexivity|discriminate].
    unfold Spec.error_status. cbn. lia.
Defined.

(** A request that succeeds, answered with status 200 and markup that the
    parser rejects: the call returns no list, it raises. And a request
    answered with 304 Not Modified: the status is no success status, the
    request did not fail for [requests], and the result is one entry, not
    the empty list. *)
Lemma scrape_web_page_not_as_claimed :
  requests_get Toy.web "http://docs.example/broken" 10
  = ok (mkResponse 200 "<![spam[x]]>") /\
  Ingest.scrape_web_page Toy.web "http://docs.example/broken"
  = raise ParserRejectedMarkup /\
  (forall docs,
      Ingest.scrape_web_page Toy.web "http://docs.example/broken"
      <> ok docs) /\
  requests_get Toy.web "http://docs.example/cached" 10
  = ok (mkResponse 304 "") /\
  ~ (200 <= status_code (mkResponse 304 "") < 300) /\
  Ingest.scrape_web_page Toy.web "http://docs.example/cached"
  = ok [ {| source := "http://docs.example/cached"; content := "" |} ] /\
  Ingest.scrape_web_page Toy.web "http://docs.example/cached" <> ok [].
Proof.
  split; [reflexivity|]. split; [reflexivity|].
  split; [intros docs; discriminate|].
  split; [reflexivity|]. split; [cbn; lia|]. split; [reflexivity|].
  discriminate.
Defined.

(** One question to the session that has ingested two documents. *)
Lemma ask_question_pipeline_order_witness :
  Rag.reachable Toy.ready /\
  qa_chain Toy.ready = Some {| chain_llm := Rag.LLM_REPO_ID |} /\
  exists r found docs prompt answer,
    retriever Toy.ready = Some r /\
    found = similarity_search Toy.lib ForSources (vectorstore r)
              "What is indexed?" (search_k r) /\
    docs = similarity_search Toy.lib ForContext (vectorstore r)
             "What is indexed?" (search_k r) /\
    prompt = Rag.RAG_PROMPT (Rag._format_docs docs)
               (str_messages Toy.lib (memory Toy.ready))
               "What is indexed?" /\
    answer = chat_invoke Toy.lib Rag.LLM_REPO_ID prompt /\
    trace (Rag.ask_question Toy.lib true "What is indexed?" Toy.ready) =
      RetrieverInvoked r "What is indexed?" found ::
      Spec.input_events true r "What is indexed?" docs (memory Toy.ready) ++
      [ PromptAssembled prompt;
        ModelInvoked Rag.LLM_REPO_ID prompt answer;
        ContextSaved "What is indexed?" answer ] /\
    memory (after (Rag.ask_question Toy.lib true "What is indexed?"
                     Toy.ready)) =
      memory Toy.ready ++ [HumanMessage "What is indexed?"; AIMessage answer].
Proof.
  split; [exact toy_ready_reachable|]. split; [reflexivity|].
  exact (ask_question_pipeline_order Toy.lib true "What is indexed?"
           Toy.ready {| chain_llm := Rag.LLM_REPO_ID |}
           toy_ready_reachable eq_refl).
Defined.

Lemma ask_question_prompt_fields_witness :
  Rag.reachable Toy.ready /\
  qa_chain Toy.ready = Some {| chain_llm := Rag.LLM_REPO_ID |} /\
  exists response,
    value (Rag.ask_question Toy.lib false "What is indexed?" Toy.ready)
    = ok response /\
    response !! "answer" = Some (VStr "I don't know.").
Proof.
  split; [exact toy_ready_reachable|]. split; [reflexivity|].
  destruct (ask_question_prompt_fields Toy.lib false "What is indexed?"
              Toy.ready {| chain_llm := Rag.LLM_REPO_ID |}
              toy_ready_reachable eq_refl)
    as (r & _ & _ & _ & response & Hvalue & Hanswer).
  exists response. split; [exact Hvalue|exact Hanswer].
Defined.



(** A text of 1200 characters: two pieces, of 1000 and of 400 characters,
    the second starting 800 characters into the text. *)
Lemma ingest_documents_chunks_witness :
  Spec.respects_chunk_size Toy.lib /\
  Spec.respects_chunk_overlap Toy.lib /\
  Toy.long_docs <> [] /\
  split_text Toy.lib 1000 200 Toy.manual
  = [ substring 0 1000 Toy.manual; substring 800 1000 Toy.manual ] /\
  vector_store (after (Rag.ingest_documents Toy.lib Toy.long_docs Rag.init))
  = Some (Chroma_from_documents
            [ {| page_content := substring 0 1000 Toy.manual;
                 metadata := {[ "source" := "manual.txt" ]} |};
              {| page_content := substring 800 1000 Toy.manual;
                 metadata := {[ "source" := "manual.txt" ]} |} ]
            Rag.EMBEDDING_MODEL_NAME "vectorstore") /\
  String.length (substring 0 1000 Toy.manual) <= 1000 /\
  String.length (substring 800 1000 Toy.manual) <= 1000 /\
  Spec.overlap_at_most 200 Toy.manual
    (substring 0 1000 Toy.manual) (substring 800 1000 Toy.manual).
Proof.
  assert (split_text Toy.lib 1000 200 Toy.manual
          = [ substring 0 1000 Toy.manual; substring 800 1000 Toy.manual ])
    as Hsplit by (vm_compute; reflexivity).
  split; [exact toy_respects_chunk_size|].
  split; [exact toy_respects_chunk_overlap|].
  split; [discriminate|]. split; [exact Hsplit|].
  destruct (ingest_documents_chunks Toy.lib Toy.long_docs Rag.init
              toy_respects_chunk_size toy_respects_chunk_overlap)
    as (chunks & Hchunks & Hstore & _ & Hsize & Hoverlap); [discriminate|].
  cbn [Toy.long_docs flat_map content source app] in Hchunks.
  rewrite Hsplit in Hchunks. cbn [map app] in Hchunks. subst chunks.
  split; [apply Hstore; discriminate|].
  apply Forall_cons in Hsize as [H1 Hsize].
  apply Forall_cons in Hsize as [H2 _].
  split; [exact H1|]. split; [exact H2|].
  apply (Hoverlap {| source := "manual.txt"; content := Toy.manual |}
           [] _ _ []); [now left|exact Hsplit].
Defined.

Lemma retrievers_ask_for_4_witness :
  Rag.reachable Toy.ready /\
  Spec.limits_results Toy.lib /\
  (forall r, retriever Toy.ready = Some r -> search_k r = 4) /\
  (forall response docs,
      value (Rag.ask_question Toy.lib true "What is indexed?" Toy.ready)
      = ok response ->
      response !! "source_documents" = Some (VDocs docs) ->
      length docs <= 4).
Proof.
  split; [exact toy_ready_reachable|]. split; [exact toy_limits_results|].
  destruct (retrievers_ask_for_4 Toy.lib Toy.ready toy_ready_reachable)
    as (_ & _ & Hk & Hlen).
  split; [exact Hk|].
  exact (Hlen toy_limits_results true "What is indexed?").
Defined.

(** A question to a fresh object. *)
Lemma ask_question_not_initialized_witness :
  qa_chain Rag.init = None /\
  value (Rag.ask_question Toy.lib true "What is indexed?" Rag.init)
  = ok {[ "answer" := VStr "The QA system is not initialized." ]} /\
  after (Rag.ask_question Toy.lib true "What is indexed?" Rag.init)
  = Rag.init.
Proof.
  split; [reflexivity|].
  destruct (ask_question_not_initialized Toy.lib true "What is indexed?"
              Rag.init eq_refl) as (Hvalue & _ & _ & Hafter & _).
  split; [exact Hvalue|exact Hafter].
Defined.

Lemma ingest_documents_frame_witness :
  Toy.docs <> [] /\
  Rag.split_documents Toy.lib 1000 200 (map Rag.to_document Toy.docs) <> [] /\
  Rag.ingest_documents Toy.lib [] Toy.asked
  = {| value := ok tt; after := Toy.asked; trace := [] |} /\
  value (Rag.ingest_documents Toy.lib Toy.docs Toy.asked) = ok tt /\
  memory (after (Rag.ingest_documents Toy.lib Toy.docs Toy.asked))
  = memory Toy.asked.
Proof.
  split; [discriminate|]. split; [discriminate|].
  destruct (ingest_documents_frame Toy.lib Toy.docs Toy.asked)
    as (Hempty & Hfull).
  split; [exact Hempty|].
  destruct Hfull as ((Hvalue & _ & _ & Hmemory) & _);
    [discriminate|discriminate|].
  split; [exact Hvalue|exact Hmemory].
Defined.

(** A list that is not empty, of one file without content: no chunk
    results, the call raises, and store and retriever are not replaced. *)
Lemma ingest_documents_blank :
  Toy.blank_docs <> [] /\
  value (Rag.ingest_documents Toy.lib Toy.blank_docs Rag.init)
  = raise ValueError /\
  vector_store (after (Rag.ingest_documents Toy.lib Toy.blank_docs Rag.init))
  = None /\
  retriever (after (Rag.ingest_documents Toy.lib Toy.blank_docs Rag.init))
  = None.
Proof.
  split; [discriminate|]. now repeat split.
Defined.

End Witnesses.

(** * Further properties *)

(** ** ingest_data.py *)

Section MoreIngestFacts.

Context (fs : FileSystem).

(** The directory loop over the first names of a listing, all of which
    contribute. *)
Lemma load_loop_prefix (source_dir : string) (before rest : list string)
    (entries : list (list SourceDoc)) :
  Forall (fun name => Str.has_sep name = false) before ->
  Forall2 (Spec.file_entries fs source_dir) before entries ->
  forall all_docs,
    Ingest.load_loop fs source_dir (before ++ rest) all_docs
    = Ingest.load_loop fs source_dir rest (all_docs ++ concat entries).
Proof.
  intros Hsep Hent. induction Hent as [|name ds names entries Hd _ IH].
  - intros all_docs. cbn. now rewrite app_nil_r.
  - intros all_docs. apply Forall_cons in Hsep as [Hname Hsep].
    specialize (IH Hsep).
    change ((name :: names) ++ rest) with (name :: (names ++ rest)).
    cbn [Ingest.load_loop concat].
    destruct Hd as [pages Hp He Hr | text Hp Hm He Hr
                   | text Hp Hm Ht He Hr | Hp Hm Ht].
    + rewrite Hp. unfold Ingest.parse_pdf. rewrite He, Hr. cbn.
      rewrite IH, basename_join, pdf_pages_entries by exact Hname.
      now rewrite app_assoc.
    + rewrite Hp, Hm. unfold Ingest.parse_markdown. rewrite He, Hr. cbn.
      rewrite IH, basename_join by exact Hname. now rewrite <- app_assoc.
    + rewrite Hp, Hm, Ht. unfold Ingest.parse_text. rewrite He, Hr. cbn.
      rewrite IH, basename_join by exact Hname. now rewrite <- app_assoc.
    + rewrite Hp, Hm, Ht. now rewrite IH.
Qed.

(** X1. One file that cannot be opened or decoded makes [load_documents]
    raise: the exception of that file is the result, and what the files
    before it contributed is lost, as is all that comes after it. *)
Theorem load_documents_unreadable_file (source_dir : string)
    (before : list string) (filename : string) (rest : list string)
    (entries : list (list SourceDoc)) (e : Exception) :
  listdir fs source_dir = ok (before ++ filename :: rest) ->
  Forall (fun name => Str.has_sep name = false) before ->
  Forall2 (Spec.file_entries fs source_dir) before entries ->
  Session.file_raises fs source_dir filename e ->
  Ingest.load_documents fs source_dir = raise e.
Proof.
  intros Hl Hsep Hent Hraise. unfold Ingest.load_documents. rewrite Hl.
  cbn [rbind ok].
  rewrite (load_loop_prefix source_dir before (filename :: rest) entries
             Hsep Hent).
  cbn [Ingest.load_loop].
  destruct Hraise as [Hp He Hr | Hp Hm He Hr | Hp Hm Ht He Hr].
  - rewrite Hp. unfold Ingest.parse_pdf. now rewrite He, Hr.
  - rewrite Hp, Hm. unfold Ingest.parse_markdown. now rewrite He, Hr.
  - rewrite Hp, Hm, Ht. unfold Ingest.parse_text. now rewrite He, Hr.
Qed.

(** The sources of the page loop carry the page numbers after [start]. *)
Lemma pdf_pages_sources (base : string) (pages : list string) (start : nat)
    (d : SourceDoc) :
  In d (Ingest.pdf_pages base start pages) ->
  exists i, start <= i /\ source d = base +:+ " - Page " +:+ pretty (i + 1).
Proof.
  revert start. induction pages as [|text rest IH]; intros start; [easy|].
  cbn [Ingest.pdf_pages]. intros [<- | Hin].
  - exists start. now split.
  - destruct (IH (S start) Hin) as (i & Hi & Hs). exists i. split; [lia|easy].
Qed.

Lemma pdf_pages_NoDup (base : string) (pages : list string) (start : nat) :
  List.NoDup (map source (Ingest.pdf_pages base start pages)).
Proof.
  revert start. induction pages as [|text rest IH]; intros start.
  - constructor.
  - cbn [Ingest.pdf_pages map source]. constructor; [|apply IH].
    intros (d & Hs & Hin)%in_map_iff.
    apply pdf_pages_sources in Hin as (i & Hi & Hd).
    rewrite Hd in Hs.
    apply (inj (String.app base)) in Hs.
    apply (inj (String.app " - Page ")) in Hs.
    apply (inj pretty) in Hs. lia.
Qed.

Lemma pdf_pages_length (base : string) (pages : list string) (start : nat) :
  length (Ingest.pdf_pages base start pages) = length pages.
Proof.
  revert start. induction pages as [|text rest IH]; intros start;
    [reflexivity|].
  cbn [Ingest.pdf_pages length]. now rewrite IH.
Qed.

Lemma pdf_pages_content (base : string) (pages : list string) (start : nat) :
  map content (Ingest.pdf_pages base start pages) = pages.
Proof.
  revert start. induction pages as [|text rest IH]; intros start;
    [reflexivity|].
  cbn [Ingest.pdf_pages map content]. now rewrite IH.
Qed.

(** X2. What [parse_pdf] returns has one entry for each page of the
    document, and no two entries have the same source: the page number
    tells the pages of a file apart. *)
Theorem parse_pdf_sources_distinct (file_path : string)
    (pages : list string) :
  path_exists fs file_path = true ->
  fitz_open fs file_path = ok pages ->
  exists docs,
    Ingest.parse_pdf fs file_path = ok docs /\
    length docs = length pages /\
    map content docs = pages /\
    List.NoDup (map source docs).
Proof.
  intros He Hopen. unfold Ingest.parse_pdf. rewrite He, Hopen.
  cbn [negb rbind ok]. eexists. split; [reflexivity|].
  split; [apply pdf_pages_length|].
  split; [apply pdf_pages_content|apply pdf_pages_NoDup].
Qed.

End MoreIngestFacts.

Section MoreScrapeFacts.

Context (web : Web).

(** X3. [scrape_web_page] returns at most one entry, with the URL as its
    source, or raises what [requests.get] or the parser raised; what it
    raises is never a [RequestException]. *)
Theorem scrape_web_page_outcomes (url : string) :
  (exists docs,
      Ingest.scrape_web_page web url = ok docs /\
      length docs <= 1 /\
      Forall (fun doc => source doc = url) docs) \/
  (exists e,
      Ingest.scrape_web_page web url = raise e /\
      Session.is_request_exception e = false /\
      (requests_get web url 10 = raise e \/
       exists response,
         requests_get web url 10 = ok response /\
         html_parser web (body response) = raise e)).
Proof.
  unfold Ingest.scrape_web_page, Ingest.scrape_try.
  destruct (requests_get web url 10) as [e|response] eqn:Hget; cbn [rbind].
  - destruct e; try (right; eexists; split; [reflexivity|]; split;
                     [reflexivity|]; now left).
    left. exists []. repeat split; [cbn; lia|constructor].
  - unfold Ingest.raise_for_status.
    destruct ((400 <=? status_code response)
              && (status_code response <? 600))%nat; cbn [rbind raise ok].
    + left. exists []. repeat split; [cbn; lia|constructor].
    + destruct (html_parser web (body response)) as [e|soup] eqn:Hparse;
        cbn [rbind].
      * destruct e; try (right; eexists; split; [reflexivity|]; split;
                         [reflexivity|]; right; eexists; now split).
        left. exists []. repeat split; [cbn; lia|constructor].
      * left. eexists. split; [reflexivity|].
        split; [cbn; lia|]. now repeat constructor.
Qed.

Lemma flat_map_singletons {A : Type} (f : A -> list A) (l : list A) :
  Forall (fun x => f x = [x]) l -> flat_map f l = l.
Proof.
  induction 1 as [|x l Hx _ IH]; [reflexivity|]. cbn. now rewrite Hx, IH.
Qed.

(** [decompose] leaves a page without the names as it is. *)
Lemma decompose_free_id (names : list string) (n : Node) :
  Spec.free_of names n = true -> Ingest.decompose names n = [n].
Proof.
  induction n as [text|text|text|name children IH] using Node_nested_ind;
    [reflexivity..|].
  cbn [Spec.free_of Ingest.decompose].
  intros [Hname Hfree]%andb_prop.
  apply negb_true_iff in Hname. rewrite Hname. do 2 f_equal.
  apply flat_map_singletons.
  rewrite List.Forall_forall in IH. apply List.Forall_forall.
  intros c Hc. apply IH; [exact Hc|].
  rewrite forallb_forall in Hfree. now apply Hfree.
Qed.

Lemma decompose_all_free_of (names : list string) (soup : list Node) :
  forallb (Spec.free_of names) (Ingest.decompose_all names soup) = true.
Proof.
  unfold Ingest.decompose_all. apply forallb_flat_map, List.Forall_forall.
  intros n _. apply decompose_free_of.
Qed.

(** X4. After the removal pass no element with one of the names is left in
    the page, at any depth, and a second pass changes nothing. *)
Theorem decompose_all_complete (names : list string) (soup : list Node) :
  forallb (Spec.free_of names) (Ingest.decompose_all names soup) = true /\
  Ingest.decompose_all names (Ingest.decompose_all names soup)
  = Ingest.decompose_all names soup.
Proof.
  split; [apply decompose_all_free_of|].
  unfold Ingest.decompose_all at 1. apply flat_map_singletons.
  apply List.Forall_forall. intros n Hn. apply decompose_free_id.
  pose proof (decompose_all_free_of names soup) as Hfree.
  rewrite forallb_forall in Hfree. now apply Hfree.
Qed.

End MoreScrapeFacts.

(** ** rag_core.py *)

Section MoreRagFacts.

(** The three calls that are not a question leave the memory alone. *)
Lemma call_memory (c : Session.Call) (self : RAGCore) :
  memory (Session.call c self) = memory self \/
  exists question answer,
    memory (Session.call c self)
    = memory self ++ [HumanMessage question; AIMessage answer].
Proof.
  destruct c as [dir_exists | lib docs | | lib cf question];
    cbn [Session.call].
  - left. now destruct dir_exists.
  - left.
    now destruct (ingest_documents_cases lib docs self)
      as [-> | (vs & _ & _ & ->)].
  - left. unfold Rag.setup_qa_chain. now destruct (retriever self).
  - destruct (qa_chain self) as [chain|] eqn:Hchain.
    + destruct (retriever self) as [r|] eqn:Hretr.
      * right.
        rewrite (ask_question_ready lib cf question self chain r Hchain Hretr).
        cbn. eauto.
      * left.
        now rewrite (ask_question_no_retriever lib cf question self chain
                       Hchain Hretr).
    + left. now rewrite (ask_question_no_chain lib cf question self Hchain).
Qed.

(** X5. No call removes or rewrites what the conversation memory holds:
    after any sequence of calls, ingesting other documents included, the
    memory starts with the messages it held before. *)
Theorem memory_only_grows (cs : list Session.Call) (self : RAGCore) :
  memory self `prefix_of` memory (Session.calls cs self).
Proof.
  revert self. induction cs as [|c cs IH]; intros self; [reflexivity|].
  cbn [Session.calls fold_left]. etransitivity; [|apply IH].
  destruct (call_memory c self) as [-> | (question & answer & ->)];
    [reflexivity|].
  now apply prefix_app_r.
Qed.

Lemma pairs_messages_app (p1 p2 : list (string * string)) :
  Session.pairs_messages (p1 ++ p2)
  = Session.pairs_messages p1 ++ Session.pairs_messages p2.
Proof. unfold Session.pairs_messages. apply flat_map_app. Qed.

Lemma reachable_calls (cs : list Session.Call) (self : RAGCore) :
  Rag.reachable self -> Rag.reachable (Session.calls cs self).
Proof.
  revert self. induction cs as [|c cs IH]; intros self Hreach; [exact Hreach|].
  cbn [Session.calls fold_left]. apply IH.
  destruct c; cbn; now constructor.
Qed.

(** X6. The memory of an object a session can hold is a sequence of
    exchanges: a human message, then the reply to it, and so on. *)
Theorem memory_is_exchanges (self : RAGCore) :
  Rag.reachable self ->
  exists pairs, memory self = Session.pairs_messages pairs.
Proof.
  induction 1 as [ | dir_exists self _ IH | lib docs self _ IH
                 | self _ IH | lib cf question self _ IH ].
  - now exists [].
  - destruct (call_memory (Session.Load dir_exists) self)
      as [Hm | (q & a & Hm)]; cbn in Hm; rewrite Hm.
    + exact IH.
    + destruct IH as [pairs ->]. exists (pairs ++ [(q, a)]).
      now rewrite pairs_messages_app.
  - destruct (call_memory (Session.Ingest lib docs) self)
      as [Hm | (q & a & Hm)]; cbn in Hm; rewrite Hm.
    + exact IH.
    + destruct IH as [pairs ->]. exists (pairs ++ [(q, a)]).
      now rewrite pairs_messages_app.
  - destruct (call_memory Session.Setup self)
      as [Hm | (q & a & Hm)]; cbn in Hm; rewrite Hm.
    + exact IH.
    + destruct IH as [pairs ->]. exists (pairs ++ [(q, a)]).
      now rewrite pairs_messages_app.
  - destruct (call_memory (Session.Ask lib cf question) self)
      as [Hm | (q & a & Hm)]; cbn in Hm; rewrite Hm.
    + exact IH.
    + destruct IH as [pairs ->]. exists (pairs ++ [(q, a)]).
      now rewrite pairs_messages_app.
Qed.

(** A call keeps a chain that is there. *)
Lemma call_keeps_chain (c : Session.Call) (self : RAGCore) :
  is_Some (qa_chain self) -> is_Some (qa_chain (Session.call c self)).
Proof.
  intros Hchain.
  destruct c as [dir_exists | lib docs | | lib cf question];
    cbn [Session.call].
  - now destruct dir_exists.
  - now destruct (ingest_documents_cases lib docs self)
      as [-> | (vs & _ & _ & ->)].
  - unfold Rag.setup_qa_chain. destruct (retriever self); [|exact Hchain].
    cbn. eauto.
  - destruct (ask_question_frame lib cf question self) as (_ & -> & _).
    exact Hchain.
Qed.

(** A call keeps a retriever that is there. *)
Lemma call_keeps_retriever (c : Session.Call) (self : RAGCore) :
  is_Some (retriever self) -> is_Some (retriever (Session.call c self)).
Proof.
  intros Hretr.
  destruct c as [dir_exists | lib docs | | lib cf question];
    cbn [Session.call].
  - destruct dir_exists; cbn; eauto.
  - destruct (ingest_documents_cases lib docs self)
      as [-> | (vs & _ & _ & ->)]; cbn; eauto.
  - unfold Rag.setup_qa_chain.
    destruct (retriever self); [cbn; eauto|now destruct Hretr].
  - destruct (ask_question_frame lib cf question self) as (_ & _ & ->).
    exact Hretr.
Qed.

(** X7. Once a retriever is there it stays, and once the chain is set up it
    stays set up: no sequence of calls takes either away. *)
Theorem chain_and_retriever_stay (cs : list Session.Call) (self : RAGCore) :
  (is_Some (retriever self) -> is_Some (retriever (Session.calls cs self))) /\
  (is_Some (qa_chain self) -> is_Some (qa_chain (Session.calls cs self))).
Proof.
  revert self. induction cs as [|c cs IH]; intros self; [now split|].
  cbn [Session.calls fold_left].
  destruct (IH (Session.call c self)) as [IHr IHc]. split.
  - intros H. now apply IHr, call_keeps_retriever.
  - intros H. now apply IHc, call_keeps_chain.
Qed.

End MoreRagFacts.

Section MoreRagClaims.

Context (lib : Libs).

(** Runs a method as far as the two attributes it reads are known. *)
Ltac run_with Hchain Hretr :=
  unfold mbind, mret, Method_bind, Method_ret, method_bind, method_ret,
    method_raise, emit, get_self, set_memory, ok, raise;
  cbv beta iota;
  repeat (first [rewrite Hchain | rewrite Hretr]; cbv beta iota).

(** With a chain but no retriever the first retrieval raises, and that is
    the outcome. *)
Lemma ask_question_attribute_error (context_first : bool)
    (question : string) (self : RAGCore) (chain : QAChain) :
  qa_chain self = Some chain ->
  retriever self = None ->
  Rag.ask_question lib context_first question self =
  {| value :=
       raise (AttributeError "'NoneType' object has no attribute 'invoke'");
     after := self;
     trace := [] |}.
Proof.
  intros Hchain Hretr. unfold Rag.ask_question, Rag.retriever_invoke.
  run_with Hchain Hretr. reflexivity.
Qed.

(** X8. On an object a session can hold, [ask_question] raises nothing: it
    returns a dictionary whose "answer" is a string. In particular the
    chain never runs without a retriever. *)
Theorem ask_question_returns (context_first : bool) (question : string)
    (self : RAGCore) :
  Rag.reachable self ->
  exists response answer,
    value (Rag.ask_question lib context_first question self) = ok response /\
    response !! "answer" = Some (VStr answer).
Proof.
  intros Hreach. destruct (qa_chain self) as [chain|] eqn:Hchain.
  - destruct (reachable_chain_retriever self chain Hreach Hchain)
      as (r & Hretr & _).
    rewrite (ask_question_ready lib context_first question self chain r
               Hchain Hretr).
    cbn [value]. eexists. eexists. split; [reflexivity|].
    rewrite lookup_insert_ne by discriminate. apply lookup_singleton_eq.
  - rewrite (ask_question_no_chain lib context_first question self Hchain).
    cbn [value]. eexists. eexists. split; [reflexivity|].
    apply lookup_singleton_eq.
Qed.

(** X9. An ingest after the chain was set up takes effect at once: where it
    gives at least one chunk, the next question is put, in both of its
    searches, to the retriever that this ingest built and not to the one
    the chain was set up with; the chain and the memory are the ones that
    were there. [setup_qa_chain] need not be called again. *)
Theorem reingest_takes_effect (ingest_lib : Libs) (context_first : bool)
    (question : string) (docs : list SourceDoc) (self : RAGCore)
    (chain : QAChain) :
  qa_chain self = Some chain ->
  docs <> [] ->
  Rag.split_documents ingest_lib 1000 200 (map Rag.to_document docs) <> [] ->
  let built :=
    as_retriever
      (Chroma_from_documents
         (Rag.split_documents ingest_lib 1000 200 (map Rag.to_document docs))
         (embedding_function self) Rag.VECTORSTORE_DIR) 4 in
  let self' := after (Rag.ingest_documents ingest_lib docs self) in
  let found :=
    similarity_search lib ForSources (vectorstore built) question 4 in
  let context :=
    similarity_search lib ForContext (vectorstore built) question 4 in
  let prompt :=
    Rag.RAG_PROMPT (Rag._format_docs context)
      (str_messages lib (memory self)) question in
  let o := Rag.ask_question lib context_first question self' in
  retriever self' = Some built /\
  value o
  = ok (<[ "source_documents" := VDocs found ]>
          {[ "answer" := VStr (chat_invoke lib (chain_llm chain) prompt) ]}) /\
  (forall r query result,
      In (RetrieverInvoked r query result) (trace o) -> r = built).
Proof.
  intros Hchain Hdocs Hchunks built self' found context prompt o.
  subst o self'.
  rewrite (ingest_documents_built ingest_lib docs self Hdocs Hchunks).
  cbv zeta. cbn [after retriever]. split; [reflexivity|].
  match goal with
  | |- context [Rag.ask_question lib context_first question ?s] =>
      rewrite (ask_question_ready lib context_first question s chain
                 built Hchain eq_refl)
  end.
  cbn [value trace vectorstore search_k memory]. split; [reflexivity|].
  intros r query result Hin.
  destruct context_first; cbn in Hin;
    repeat (destruct Hin as [Hin|Hin]; [try discriminate Hin|]);
    try contradiction; now injection Hin as <- _ _.
Qed.

(** X10. The answer and the object afterwards do not depend on the order in
    which the thread pool runs the input steps of the chain. *)
Theorem ask_question_schedule_irrelevant (question : string)
    (self : RAGCore) :
  value (Rag.ask_question lib true question self)
  = value (Rag.ask_question lib false question self) /\
  after (Rag.ask_question lib true question self)
  = after (Rag.ask_question lib false question self).
Proof.
  destruct (qa_chain self) as [chain|] eqn:Hchain.
  - destruct (retriever self) as [r|] eqn:Hretr.
    + now rewrite !(ask_question_ready lib _ question self chain r
                      Hchain Hretr).
    + now rewrite !(ask_question_attribute_error _ question self chain
                      Hchain Hretr).
  - now rewrite !(ask_question_no_chain lib _ question self Hchain).
Qed.

(** The memory after a conversation on an object whose chain and retriever
    are set. *)
Lemma ask_all_ready (context_first : bool) (questions : list string)
    (self : RAGCore) (chain : QAChain) (r : Retriever) :
  qa_chain self = Some chain ->
  retriever self = Some r ->
  memory (Session.ask_all lib context_first questions self)
  = memory self ++ Session.exchanges lib chain r (memory self) questions.
Proof.
  revert self. induction questions as [|question rest IH];
    intros self Hchain Hretr.
  - cbn. now rewrite app_nil_r.
  - cbn [Session.ask_all fold_left Session.exchanges].
    change (fold_left _ rest ?s)
      with (Session.ask_all lib context_first rest s).
    rewrite (ask_question_ready lib context_first question self chain r
               Hchain Hretr).
    cbn [after]. rewrite IH by (cbn; assumption).
    cbn [memory]. now rewrite <- app_assoc.
Qed.

(** X11. In a conversation every question is answered with all earlier
    exchanges as its chat history: after the questions the memory holds, in
    order, each question and the model's reply to the prompt made of the
    passages found for it and of everything said before it. *)
Theorem conversation_memory (context_first : bool)
    (questions : list string) (self : RAGCore) (chain : QAChain) :
  Rag.reachable self ->
  qa_chain self = Some chain ->
  exists r,
    retriever self = Some r /\
    memory (Session.ask_all lib context_first questions self)
    = memory self ++ Session.exchanges lib chain r (memory self) questions /\
    length (memory (Session.ask_all lib context_first questions self))
    = length (memory self) + 2 * length questions.
Proof.
  intros Hreach Hchain.
  destruct (reachable_chain_retriever self chain Hreach Hchain)
    as (r & Hretr & _).
  exists r. split; [exact Hretr|].
  rewrite (ask_all_ready context_first questions self chain r Hchain Hretr).
  split; [reflexivity|]. rewrite length_app. f_equal.
  generalize (memory self).
  induction questions as [|question rest IH]; intros history;
    [reflexivity|].
  cbn [Session.exchanges length]. rewrite IH. lia.
Qed.

(** X12. Every chunk that a call of [ingest_documents] hands to
    [Chroma.from_documents], and so adds to the collection, is a piece of
    one of the documents of the call and carries the source of that
    document: in a prompt it is shown under that source and not as
    "Unknown". *)
Theorem ingested_chunks_have_source (docs : list SourceDoc)
    (self : RAGCore) :
  docs <> [] ->
  value (Rag.ingest_documents lib docs self) = ok tt ->
  exists chunks,
    chunks <> [] /\
    vector_store (after (Rag.ingest_documents lib docs self))
    = Some (Chroma_from_documents chunks (embedding_function self)
              Rag.VECTORSTORE_DIR) /\
    forall chunk,
      In chunk chunks ->
      exists doc,
        In doc docs /\
        In (page_content chunk) (split_text lib 1000 200 (content doc)) /\
        metadata chunk !! "source" = Some (source doc) /\
        Rag.format_doc chunk
        = "Source: " +:+ source doc +:+ LF +:+
          "Content: " +:+ page_content chunk.
Proof.
  intros Hdocs Hvalue.
  destruct (Rag.split_documents lib 1000 200 (map Rag.to_document docs))
    as [|c cs] eqn:Hchunks.
  { rewrite (ingest_documents_no_chunk lib docs self Hdocs Hchunks) in Hvalue.
    discriminate Hvalue. }
  rewrite (ingest_documents_built lib docs self Hdocs)
    by (rewrite Hchunks; discriminate).
  cbv zeta. cbn [after vector_store]. rewrite Hchunks.
  eexists. split; [|split; [reflexivity|]]; [discriminate|].
  rewrite <- Hchunks, split_documents_pieces.
  intros chunk (doc & Hdoc & Hin)%in_flat_map.
  apply in_map_iff in Hin as (piece & <- & Hpiece).
  exists doc. split; [exact Hdoc|]. split; [exact Hpiece|].
  unfold Rag.format_doc. cbn [metadata page_content].
  rewrite lookup_singleton_eq. now split.
Qed.

End MoreRagClaims.

(** ** app.py *)

Section AppFacts.

(** [initialize_session_state] leaves a state that has the three keys as it
    is. *)
Lemma initialize_present (host : App.Host) (rag : RAGCore) (ready : bool)
    (msgs : list App.ChatMessage) :
  App.initialize_session_state host
    {| App.rag_core := Some rag; App.chain_ready := Some ready;
       App.messages := Some msgs |}
  = {| App.rag_core := Some rag; App.chain_ready := Some ready;
       App.messages := Some msgs |}.
Proof. reflexivity. Qed.

(** After [initialize_session_state] the three keys are there. *)
Lemma initialize_keys (host : App.Host) (s : App.SessionState) :
  exists rag ready msgs,
    App.initialize_session_state host s
    = {| App.rag_core := Some rag; App.chain_ready := Some ready;
         App.messages := Some msgs |}.
Proof.
  unfold App.initialize_session_state.
  destruct (App.chain_ready s) as [ready|].
  - eauto.
  - destruct (Rag.load_existing_vectorstore _ _) as [[] rag]; eauto.
Qed.

(** X13. [initialize_session_state] sets the three keys of the session state
    and writes to a key only if it is missing: run again, on whatever host,
    it changes nothing, so a rerun of the script does not reset the core,
    the ready flag or the chat. *)
Theorem initialize_session_state_once (host host' : App.Host)
    (s : App.SessionState) :
  App.initialize_session_state host' (App.initialize_session_state host s)
  = App.initialize_session_state host s /\
  (forall rag, App.rag_core s = Some rag ->
     forall ready, App.chain_ready s = Some ready ->
       App.rag_core (App.initialize_session_state host s) = Some rag) /\
  (forall ready, App.chain_ready s = Some ready ->
     App.chain_ready (App.initialize_session_state host s) = Some ready) /\
  (forall msgs, App.messages s = Some msgs ->
     App.messages (App.initialize_session_state host s) = Some msgs).
Proof.
  split; [|split; [|split]].
  - destruct (initialize_keys host s) as (rag & ready & msgs & ->).
    apply initialize_present.
  - intros rag Hrag ready Hready. unfold App.initialize_session_state.
    now rewrite Hrag, Hready.
  - intros ready Hready. unfold App.initialize_session_state.
    now rewrite Hready.
  - intros msgs Hmsgs. unfold App.initialize_session_state.
    rewrite Hmsgs. destruct (App.chain_ready s); [reflexivity|].
    now destruct (Rag.load_existing_vectorstore _ _) as [[] rag].
Qed.

(** The first run leaves a healthy state. *)
Lemma initialize_new_healthy (host : App.Host) :
  App.healthy (App.initialize_session_state host App.new_session).
Proof.
  unfold App.initialize_session_state, App.new_session.
  cbn [App.rag_core App.chain_ready App.messages].
  destruct (path_exists (App.disk host) Rag.VECTORSTORE_DIR).
  - cbn. constructor.
    + apply (Rag.reach_setup _ (Rag.reach_load true _ Rag.reach_init)).
    + reflexivity.
    + now exists [].
    + cbn. constructor.
  - cbn. constructor.
    + exact Rag.reach_init.
    + cbn. intros [chain [=]].
    + now exists [].
    + cbn. constructor.
Qed.

(** What the sidebar leaves of the core and of the flag: both as they
    were, also where the button raised, or the core after the ingest and
    the new chain, and the flag set. *)
Lemma sidebar_cases (host : App.Host) (inputs : App.Inputs) (rag : RAGCore)
    (ready : bool) :
  (exists oe shown,
      App.sidebar host inputs rag ready = (oe, rag, ready, shown) /\
      (forall e, oe = Some e ->
                 App.ingest_button inputs = true /\
                 (App.collect host inputs = raise e \/
                  exists all_docs,
                    App.collect host inputs = ok all_docs /\
                    value (Rag.ingest_documents (App.lib host) all_docs rag)
                    = raise e))) \/
  (exists all_docs shown,
      App.ingest_button inputs = true /\
      App.collect host inputs = ok all_docs /\
      value (Rag.ingest_documents (App.lib host) all_docs rag) = ok tt /\
      App.sidebar host inputs rag ready
      = (None,
         Rag.setup_qa_chain
           (after (Rag.ingest_documents (App.lib host) all_docs rag)),
         true, shown)).
Proof.
  unfold App.sidebar.
  destruct (App.ingest_button inputs) eqn:Hb;
    [|left; eexists _, _; now split].
  destruct (App.collect host inputs) as [e|all_docs] eqn:Hc.
  - left. destruct (App.uploaded_files inputs);
      [destruct (String.eqb _ _)|]; eexists _, _;
      (split; [reflexivity|]); intros e' [= <-] || intros e' [=];
      split; auto.
  - cbv zeta.
    destruct (value (Rag.ingest_documents (App.lib host) all_docs rag))
      as [e|[]] eqn:Hv.
    + left.
      destruct (ingest_documents_raises (App.lib host) all_docs rag e Hv)
        as (_ & _ & _ & ->).
      destruct (App.uploaded_files inputs);
        [destruct (String.eqb _ _)|]; eexists _, _;
        (split; [reflexivity|]); intros e' [= <-] || intros e' [=];
        (split; [reflexivity|]); right; now exists all_docs.
    + destruct (App.uploaded_files inputs);
        [destruct (String.eqb _ _)|].
      * left. eexists _, _. split; [reflexivity|]. intros e [=].
      * right. eexists _, _. now repeat split.
      * right. eexists _, _. now repeat split.
Qed.

Lemma sidebar_keeps (host : App.Host) (inputs : App.Inputs) (rag : RAGCore)
    (ready : bool) (oe : option Exception) (rag' : RAGCore) (ready' : bool)
    (shown : list App.Notice) :
  App.sidebar host inputs rag ready = (oe, rag', ready', shown) ->
  Rag.reachable rag ->
  (is_Some (qa_chain rag) -> ready = true) ->
  Rag.reachable rag' /\
  (is_Some (qa_chain rag') -> ready' = true) /\
  memory rag' = memory rag.
Proof.
  intros Hs Hreach Hflag.
  destruct (sidebar_cases host inputs rag ready)
    as [(oe' & shown' & Heq & _) | (docs & shown' & _ & _ & _ & Heq)];
    rewrite Heq in Hs; injection Hs as <- <- <- <-.
  - now repeat split.
  - split; [now apply Rag.reach_setup, Rag.reach_ingest|].
    split; [reflexivity|].
    destruct (ingest_documents_keeps (App.lib host) docs rag) as (<- & _).
    unfold Rag.setup_qa_chain.
    now destruct (retriever (after (Rag.ingest_documents (App.lib host) docs
                                      rag))).
Qed.

(** What the chat does on an object a session can hold. *)
Lemma chat_cases (host : App.Host) (prompt : string) (rag : RAGCore)
    (ready : bool) (msgs : list App.ChatMessage) :
  Rag.reachable rag ->
  (ready = false /\
   exists shown, App.chat host prompt rag ready msgs = (None, rag, msgs, shown))
  \/
  (ready = true /\ qa_chain rag = None /\
   App.chat host prompt rag ready msgs
   = (None, rag,
      msgs ++ [App.user_message prompt;
               App.assistant_message
                 (VStr "The QA system is not initialized.")], []))
  \/
  (ready = true /\ is_Some (qa_chain rag) /\
   exists rag' answer,
     App.chat host prompt rag ready msgs
     = (None, rag',
        msgs ++ [App.user_message prompt;
                 App.assistant_message (VStr answer)], []) /\
     rag' = after (Rag.ask_question (App.lib host) (App.context_first host)
                     prompt rag) /\
     memory rag' = memory rag ++ [HumanMessage prompt; AIMessage answer]).
Proof.
  intros Hreach. unfold App.chat. destruct ready; cbn [negb].
  - destruct (qa_chain rag) as [chain|] eqn:Hchain.
    + right. right. split; [reflexivity|]. split; [eauto|].
      destruct (reachable_chain_retriever rag chain Hreach Hchain)
        as (r & Hretr & _).
      rewrite (ask_question_ready (App.lib host) (App.context_first host)
                 prompt rag chain r Hchain Hretr).
      unfold ok. cbn [value after memory]. eexists _, _.
      rewrite lookup_insert_ne by discriminate.
      rewrite lookup_singleton_eq. cbn [default].
      rewrite <- app_assoc. now repeat split.
    + right. left. split; [reflexivity|]. split; [reflexivity|].
      rewrite (ask_question_no_chain (App.lib host) (App.context_first host)
                 prompt rag Hchain).
      unfold ok. cbn [value after]. rewrite lookup_singleton_eq.
      cbn [default]. now rewrite <- app_assoc.
  - left. split; [reflexivity|]. eauto.
Qed.

Lemma transcript_app (p1 p2 : list (string * Value)) :
  App.transcript (p1 ++ p2) = App.transcript p1 ++ App.transcript p2.
Proof. unfold App.transcript. apply flat_map_app. Qed.

Lemma healthy_initialize (host : App.Host) (s : App.SessionState) :
  s = App.new_session \/ App.healthy s ->
  App.healthy (App.initialize_session_state host s).
Proof.
  intros [-> | Hs]; [apply initialize_new_healthy|].
  destruct Hs. now rewrite initialize_present.
Qed.

(** A run of the script keeps the session state healthy. *)
Lemma script_healthy (host : App.Host) (inputs : App.Inputs)
    (s : App.SessionState) :
  s = App.new_session \/ App.healthy s ->
  App.session (App.script host inputs s) = s \/
  App.healthy (App.session (App.script host inputs s)).
Proof.
  intros Hs. unfold App.script.
  destruct (App.token_set host); cbn [negb]; [right|now left].
  destruct (healthy_initialize host s Hs)
    as [rag ready msgs Hreach Hflag Hpairs Hsub].
  cbn [App.rag_core App.chain_ready App.messages].
  destruct (App.sidebar host inputs rag ready)
    as [[[oe rag1] ready1] shown] eqn:Hside.
  destruct (sidebar_keeps host inputs rag ready oe rag1 ready1 shown
              Hside Hreach Hflag) as (Hreach1 & Hflag1 & Hmem1).
  assert (App.healthy
            {| App.rag_core := Some rag1; App.chain_ready := Some ready1;
               App.messages := Some msgs |}) as Hsame.
  { constructor; [assumption..|]. now rewrite Hmem1. }
  destruct oe as [e|]; [exact Hsame|].
  destruct (App.chat_input inputs) as [[|c prompt]|]; [exact Hsame| |exact Hsame].
  destruct (chat_cases host (String c prompt) rag1 ready1 msgs Hreach1)
    as [(_ & shown' & Hchat)
       | [(_ & Hnone & Hchat)
         | (Hready & Hsome & rag2 & answer & Hchat & Hrag2 & Hmem2)]];
    rewrite Hchat; cbn [App.session].
  - exact Hsame.
  - destruct Hpairs as [pairs ->].
    constructor; [assumption..| |].
    + exists (pairs ++ [(String c prompt,
                         VStr "The QA system is not initialized.")]).
      now rewrite transcript_app.
    + rewrite Hmem1. now apply sublist_inserts_r.
  - destruct Hpairs as [pairs ->].
    constructor.
    + rewrite Hrag2. now apply Rag.reach_ask.
    + intros _. exact Hready.
    + exists (pairs ++ [(String c prompt, VStr answer)]).
      now rewrite transcript_app.
    + rewrite Hmem2, map_app, Hmem1. now apply sublist_app.
Qed.

Lemma reachable_healthy (s : App.SessionState) :
  App.reachable s -> s = App.new_session \/ App.healthy s.
Proof.
  induction 1 as [|host inputs s _ IH]; [now left|].
  destruct (script_healthy host inputs s IH) as [-> | H]; [exact IH|now right].
Qed.

(** X14. In a browser session the chat is a sequence of questions and
    answers: the entries of [messages] come in pairs, a user entry with the
    prompt and then the assistant entry with its answer. *)
Theorem chat_is_questions_and_answers (s : App.SessionState)
    (msgs : list App.ChatMessage) :
  App.reachable s ->
  App.messages s = Some msgs ->
  exists pairs,
    msgs =
    flat_map
      (fun qa =>
         [ {| App.role := "user"; App.content := VStr (fst qa) |};
           {| App.role := "assistant"; App.content := snd qa |} ])
      pairs.
Proof.
  intros [-> | Hs]%reachable_healthy Hmsgs; [discriminate Hmsgs|].
  destruct Hs as [rag ready msgs' _ _ Hpairs _].
  cbn in Hmsgs. injection Hmsgs as <-. exact Hpairs.
Qed.

(** X15. In a browser session the conversation memory of the core holds
    nothing that the chat does not show: its messages are entries of
    [messages], in the same order. The core itself is an object that calls
    of its methods lead to. *)
Theorem memory_was_shown (s : App.SessionState) (rag : RAGCore)
    (msgs : list App.ChatMessage) :
  App.reachable s ->
  App.rag_core s = Some rag ->
  App.messages s = Some msgs ->
  Rag.reachable rag /\
  map App.shown_as (memory rag) `sublist_of` msgs.
Proof.
  intros [-> | Hs]%reachable_healthy Hrag Hmsgs; [discriminate Hrag|].
  destruct Hs as [rag' ready msgs' Hreach _ _ Hsub].
  cbn in Hrag, Hmsgs. injection Hrag as <-. injection Hmsgs as <-.
  now split.
Qed.

(** X16. In a browser session the three keys of the session state are set
    together, and where the core has a chain the ready flag is true: no
    question is turned away while a chain is there to answer it. *)
Theorem chain_implies_ready (s : App.SessionState) :
  App.reachable s ->
  s = App.new_session \/
  exists rag ready msgs,
    s = {| App.rag_core := Some rag; App.chain_ready := Some ready;
           App.messages := Some msgs |} /\
    (is_Some (qa_chain rag) -> ready = true).
Proof.
  intros [-> | Hs]%reachable_healthy; [now left|right].
  destruct Hs as [rag ready msgs _ Hflag _ _]. now exists rag, ready, msgs.
Qed.

(** X17. In a browser session a run of the script can only be ended by an
    exception of the ingest button: one that came out of collecting the
    documents (reading the uploaded files, requesting or parsing the page),
    or the one [ingest_documents] raised on the documents collected. The
    questions asked never end it. The run then leaves the session state as
    [initialize_session_state] left it: the core, the ready flag and the
    chat are untouched, and no success is announced. *)
Theorem script_raises_only_from_ingest (host : App.Host)
    (inputs : App.Inputs) (s : App.SessionState) (e : Exception) :
  App.reachable s ->
  App.raised (App.script host inputs s) = Some e ->
  App.ingest_button inputs = true /\
  (App.collect host inputs = raise e \/
   exists all_docs rag,
     App.collect host inputs = ok all_docs /\
     App.rag_core (App.initialize_session_state host s) = Some rag /\
     value (Rag.ingest_documents (App.lib host) all_docs rag) = raise e) /\
  App.session (App.script host inputs s)
  = App.initialize_session_state host s /\
  App.notices (App.script host inputs s) = [].
Proof.
  intros Hs%reachable_healthy. unfold App.script.
  destruct (App.token_set host); cbn [negb]; [|discriminate].
  destruct (healthy_initialize host s Hs)
    as [rag ready msgs Hreach Hflag Hpairs Hsub].
  cbn [App.rag_core App.chain_ready App.messages].
  destruct (sidebar_cases host inputs rag ready)
    as [(oe & shown & Heq & Hraise) | (docs & shown & _ & _ & _ & Heq)].
  - destruct oe as [e'|].
    + destruct (Hraise e' eq_refl) as (Hbutton & Hwhere).
      assert (shown = []) as ->.
      { revert Heq. unfold App.sidebar. rewrite Hbutton.
        destruct (App.uploaded_files inputs);
          [destruct (String.eqb _ _); [discriminate|]|];
          (destruct (App.collect host inputs);
           [now intros [= _ <-]|]); cbv zeta;
          (destruct (value _); [now intros [= _ _ <-]|discriminate]). }
      rewrite Heq. cbn. intros [= <-].
      split; [exact Hbutton|]. split; [|now split].
      destruct Hwhere as [H | (all_docs & H1 & H2)]; [now left|right].
      now exists all_docs, rag.
    + rewrite Heq.
      destruct (App.chat_input inputs) as [[|c prompt]|];
        [discriminate| |discriminate].
      destruct (chat_cases host (String c prompt) rag ready msgs Hreach)
        as [(_ & shown' & Hchat)
           | [(_ & _ & Hchat) | (_ & _ & rag2 & answer & Hchat & _)]];
        rewrite Hchat; discriminate.
  - rewrite Heq.
    destruct (App.chat_input inputs) as [[|c prompt]|];
      [discriminate| |discriminate].
    assert (Rag.reachable
              (Rag.setup_qa_chain
                 (after (Rag.ingest_documents (App.lib host) docs rag))))
      as Hreach'.
    { now apply Rag.reach_setup, Rag.reach_ingest. }
    destruct (chat_cases host (String c prompt) _ true msgs Hreach')
      as [(_ & shown' & Hchat)
         | [(_ & _ & Hchat) | (_ & _ & rag2 & answer & Hchat & _)]];
      rewrite Hchat; discriminate.
Qed.

(** X18. The ingest button marks the session ready also when it collected
    nothing. When the list it collected is empty (the page could not be
    fetched, say) and the core had no store, the run still announces that
    ingestion is complete, the core is left without a chain, and the next
    question gets the answer "The QA system is not initialized." in the
    chat. *)
Theorem empty_ingest_marks_ready (host : App.Host) (inputs : App.Inputs)
    (rag : RAGCore) (ready : bool) (msgs : list App.ChatMessage) :
  App.token_set host = true ->
  App.ingest_button inputs = true ->
  App.chat_input inputs = None ->
  App.uploaded_files inputs <> [] \/ App.url_to_scrape inputs <> "" ->
  App.collect host inputs = ok [] ->
  retriever rag = None ->
  qa_chain rag = None ->
  let run :=
    App.script host inputs
      {| App.rag_core := Some rag; App.chain_ready := Some ready;
         App.messages := Some msgs |} in
  App.session run
  = {| App.rag_core := Some rag; App.chain_ready := Some true;
       App.messages := Some msgs |} /\
  App.notices run
  = [ App.Success "Ingestion complete! You can now ask questions.";
      App.Success "Data has been ingested. The QA system is ready." ] /\
  forall host' prompt,
    App.token_set host' = true ->
    prompt <> "" ->
    App.session
      (App.script host'
         {| App.uploaded_files := []; App.url_to_scrape := "";
            App.ingest_button := false; App.chat_input := Some prompt |}
         (App.session run))
    = {| App.rag_core := Some rag; App.chain_ready := Some true;
         App.messages :=
           Some (msgs ++
                 [ {| App.role := "user"; App.content := VStr prompt |};
                   {| App.role := "assistant";
                      App.content :=
                        VStr "The QA system is not initialized." |} ]) |}.
Proof.
  intros Htoken Hbutton Hchat Hgiven Hcollect Hretr Hchain run.
  assert (App.script host inputs
            {| App.rag_core := Some rag; App.chain_ready := Some ready;
               App.messages := Some msgs |}
          = {| App.raised := None;
               App.session :=
                 {| App.rag_core := Some rag; App.chain_ready := Some true;
                    App.messages := Some msgs |};
               App.notices :=
                 [ App.Success "Ingestion complete! You can now ask questions.";
                   App.Success
                     "Data has been ingested. The QA system is ready." ] |})
    as Hrun.
  { unfold App.script. rewrite Htoken. cbn [negb].
    rewrite initialize_present.
    cbn [App.rag_core App.chain_ready App.messages].
    assert (Rag.setup_qa_chain rag = rag) as Hsame.
    { unfold Rag.setup_qa_chain. now rewrite Hretr. }
    unfold App.sidebar. rewrite Hbutton, Hcollect, Hchat. unfold ok.
    rewrite ingest_documents_empty. cbn [value after]. unfold ok.
    destruct (App.uploaded_files inputs) as [|f fs] eqn:Hfiles.
    - destruct (String.eqb (App.url_to_scrape inputs) "") eqn:Hurl.
      + apply String.eqb_eq in Hurl. now destruct Hgiven.
      + cbv beta iota zeta. now rewrite Hsame.
    - cbv beta iota zeta. now rewrite Hsame. }
  subst run. rewrite Hrun. cbn [App.session App.notices].
  split; [reflexivity|]. split; [reflexivity|].
  intros host' prompt Htoken' Hprompt.
  unfold App.script. rewrite Htoken'. cbn [negb].
  rewrite initialize_present.
  cbn [App.rag_core App.chain_ready App.messages App.sidebar
       App.ingest_button App.chat_input].
  destruct prompt as [|c prompt]; [contradiction|].
  unfold App.chat. cbn [negb].
  rewrite (ask_question_no_chain (App.lib host') (App.context_first host')
             (String c prompt) rag Hchain).
  unfold ok. cbn [value after App.session].
  rewrite lookup_singleton_eq. cbn [default].
  now rewrite <- app_assoc.
Qed.

(** X19. A question typed while the session is not marked ready is turned
    away with a warning: it is not sent to the core and not added to the
    chat, and the session state stays as it was. *)
Theorem question_before_ingest_is_dropped (host : App.Host)
    (inputs : App.Inputs) (prompt : string) (rag : RAGCore)
    (msgs : list App.ChatMessage) :
  App.token_set host = true ->
  App.ingest_button inputs = false ->
  App.chat_input inputs = Some prompt ->
  prompt <> "" ->
  let s :=
    {| App.rag_core := Some rag; App.chain_ready := Some false;
       App.messages := Some msgs |} in
  App.script host inputs s
  = {| App.raised := None;
       App.session := s;
       App.notices :=
         [ App.Warning "No data ingested yet. Please upload documents.";
           App.Warning "Please ingest documents before asking questions." ] |}.
Proof.
  intros Htoken Hbutton Hchat Hprompt s. subst s.
  unfold App.script. rewrite Htoken. cbn [negb].
  rewrite initialize_present.
  cbn [App.rag_core App.chain_ready App.messages].
  unfold App.sidebar. rewrite Hbutton, Hchat.
  destruct prompt as [|c prompt]; [contradiction|]. reflexivity.
Qed.

(** X20. The ingest button pressed with no file uploaded and no URL given
    shows a warning and does nothing else: the core, the ready flag and the
    chat are as [initialize_session_state] left them. *)
Theorem ingest_without_input_is_ignored (host : App.Host)
    (inputs : App.Inputs) (s : App.SessionState) :
  App.token_set host = true ->
  App.ingest_button inputs = true ->
  App.uploaded_files inputs = [] ->
  App.url_to_scrape inputs = "" ->
  App.chat_input inputs = None ->
  App.raised (App.script host inputs s) = None /\
  App.session (App.script host inputs s)
  = App.initialize_session_state host s /\
  In (App.Warning "Please upload files or provide a URL to ingest.")
    (App.notices (App.script host inputs s)).
Proof.
  intros Htoken Hbutton Hfiles Hurl Hchat.
  unfold App.script. rewrite Htoken. cbn [negb].
  destruct (initialize_keys host s) as (rag & ready & msgs & ->).
  cbn [App.rag_core App.chain_ready App.messages].
  unfold App.sidebar. rewrite Hbutton, Hfiles, Hurl, Hchat.
  cbn. auto.
Qed.

End AppFacts.

Section ConfigurationFacts.

(** [ask_question] leaves the names of the models as they are. *)
Lemma ask_question_keeps_models (lib : Libs) (context_first : bool)
    (question : string) (self : RAGCore) :
  let self' := after (Rag.ask_question lib context_first question self) in
  llm self' = llm self /\ embedding_function self' = embedding_function self.
Proof.
  destruct (qa_chain self) as [chain|] eqn:Hchain.
  - destruct (retriever self) as [r|] eqn:Hretr.
    + now rewrite (ask_question_ready lib context_first question self chain r
                     Hchain Hretr).
    + now rewrite (ask_question_no_retriever lib context_first question self
                     chain Hchain Hretr).
  - now rewrite (ask_question_no_chain lib context_first question self Hchain).
Qed.

(** X21. On every object a session can hold, the store and the retriever
    are there together and the retriever is the 4-neighbour retriever of
    that store; the store is a Chroma store of the directory "vectorstore"
    with the MiniLM embedding model; and a chain is bound to the Mixtral
    model. *)
Theorem session_configuration (self : RAGCore) :
  Rag.reachable self ->
  (forall vs, vector_store self = Some vs ->
     retriever self = Some (as_retriever vs 4) /\
     (vs = Chroma "vectorstore" "sentence-transformers/all-MiniLM-L6-v2" \/
      exists chunks,
        vs = Chroma_from_documents chunks
               "sentence-transformers/all-MiniLM-L6-v2" "vectorstore")) /\
  (forall r, retriever self = Some r ->
     vector_store self = Some (vectorstore r)) /\
  (forall chain, qa_chain self = Some chain ->
     chain_llm chain = "mistralai/Mixtral-8x7B-Instruct-v0.1").
Proof.
  intros Hreach.
  assert (llm self = Rag.LLM_REPO_ID /\
          embedding_function self = Rag.EMBEDDING_MODEL_NAME /\
          (forall vs, vector_store self = Some vs ->
             retriever self = Some (as_retriever vs 4) /\
             (vs = Chroma Rag.VECTORSTORE_DIR Rag.EMBEDDING_MODEL_NAME \/
              exists chunks,
                vs = Chroma_from_documents chunks Rag.EMBEDDING_MODEL_NAME
                       Rag.VECTORSTORE_DIR)) /\
          (forall chain, qa_chain self = Some chain ->
             chain_llm chain = Rag.LLM_REPO_ID)) as (_ & _ & Hstore & Hchain).
  { induction Hreach as [ | dir_exists self _ IH | lib docs self _ IH
                        | self _ IH | lib cf question self _ IH ].
    - split; [reflexivity|]. split; [reflexivity|].
      split; cbn; intros x Hx; discriminate Hx.
    - destruct dir_exists; [|exact IH].
      destruct IH as (Hllm & Hemb & Hstore & Hchain).
      cbn. split; [exact Hllm|]. split; [exact Hemb|].
      split; [|exact Hchain].
      intros vs [= <-]. split; [reflexivity|]. left. now rewrite Hemb.
    - destruct (ingest_documents_cases lib docs self)
        as [-> | (vs' & _ & -> & ->)]; [exact IH|].
      destruct IH as (Hllm & Hemb & Hstore & Hchain).
      cbn. split; [exact Hllm|]. split; [exact Hemb|].
      split; [|exact Hchain].
      intros vs [= <-]. split; [reflexivity|]. right. rewrite Hemb. eauto.
    - destruct IH as (Hllm & Hemb & Hstore & Hchain).
      unfold Rag.setup_qa_chain.
      destruct (retriever self) as [r|] eqn:Hretr;
        [|rewrite Hretr; exact (conj Hllm (conj Hemb (conj Hstore Hchain)))].
      cbn. split; [exact Hllm|]. split; [exact Hemb|]. split.
      + intros vs Hvs. now apply Hstore.
      + intros chain [= <-]. exact Hllm.
    - destruct IH as (Hllm & Hemb & Hstore & Hchain).
      destruct (ask_question_frame lib cf question self) as (Hv & Hc & Hr).
      destruct (ask_question_keeps_models lib cf question self) as (Hl & He).
      rewrite Hl, He, Hv, Hc, Hr.
      exact (conj Hllm (conj Hemb (conj Hstore Hchain))). }
  split; [exact Hstore|]. split; [|exact Hchain].
  intros r Hr. now apply (reachable_invariant self Hreach).
Qed.

End ConfigurationFacts.

(** ** The further properties on the small instances *)

Section MoreWitnesses.

Lemma toy_asked_reachable : Rag.reachable Toy.asked.
Proof. apply Rag.reach_ask, toy_ready_reachable. Qed.

Lemma toy_app_asked_reachable : App.reachable ToyApp.asked.
Proof. apply App.reach_run, App.reach_run, App.reach_new. Qed.

(** A markdown file, then a text file that is not UTF-8. *)
Lemma load_documents_unreadable_file_witness :
  listdir ToyApp.broken_disk "temp_uploaded"
  = ok (["notes.md"] ++ "broken.txt" :: []) /\
  Forall (fun name => Str.has_sep name = false) ["notes.md"] /\
  Forall2 (Spec.file_entries ToyApp.broken_disk "temp_uploaded") ["notes.md"]
    [ [ {| source := "notes.md"; content := "# Notes" |} ] ] /\
  Session.file_raises ToyApp.broken_disk "temp_uploaded" "broken.txt"
    UnicodeDecodeError /\
  Ingest.load_documents ToyApp.broken_disk "temp_uploaded"
  = raise UnicodeDecodeError.
Proof.
  assert (Forall (fun name => Str.has_sep name = false) ["notes.md"])
    as Hsep by (repeat constructor).
  assert (Forall2 (Spec.file_entries ToyApp.broken_disk "temp_uploaded")
            ["notes.md"]
            [ [ {| source := "notes.md"; content := "# Notes" |} ] ])
    as Hent.
  { constructor; [now apply Spec.entries_markdown|constructor]. }
  assert (Session.file_raises ToyApp.broken_disk "temp_uploaded" "broken.txt"
            UnicodeDecodeError) as Hraise.
  { now apply Session.raises_text. }
  split; [reflexivity|]. split; [exact Hsep|]. split; [exact Hent|].
  split; [exact Hraise|].
  exact (load_documents_unreadable_file ToyApp.broken_disk "temp_uploaded"
           ["notes.md"] "broken.txt" [] _ UnicodeDecodeError
           eq_refl Hsep Hent Hraise).
Defined.

Lemma parse_pdf_sources_distinct_witness :
  path_exists Toy.fs "docs/a.pdf" = true /\
  fitz_open Toy.fs "docs/a.pdf" = ok ["first page"; "second page"] /\
  exists docs,
    Ingest.parse_pdf Toy.fs "docs/a.pdf" = ok docs /\
    length docs = 2 /\
    List.NoDup (map source docs).
Proof.
  split; [reflexivity|]. split; [reflexivity|].
  destruct (parse_pdf_sources_distinct Toy.fs "docs/a.pdf"
              ["first page"; "second page"] eq_refl eq_refl)
    as (docs & Hparse & Hlen & _ & Hnodup).
  exists docs. split; [exact Hparse|]. split; [exact Hlen|exact Hnodup].
Defined.

Lemma memory_is_exchanges_witness :
  Rag.reachable Toy.asked /\
  exists pairs, memory Toy.asked = Session.pairs_messages pairs.
Proof.
  split; [exact toy_asked_reachable|].
  exact (memory_is_exchanges Toy.asked toy_asked_reachable).
Defined.

Lemma chain_and_retriever_stay_witness :
  is_Some (qa_chain Toy.ready) /\
  is_Some
    (qa_chain
       (Session.calls
          [ Session.Ingest Toy.lib Toy.docs;
            Session.Ask Toy.lib true "What is indexed?";
            Session.Load false ] Toy.ready)).
Proof.
  assert (is_Some (qa_chain Toy.ready)) as Hchain by (cbn; eauto).
  split; [exact Hchain|].
  exact (proj2 (chain_and_retriever_stay _ Toy.ready) Hchain).
Defined.

Lemma ask_question_returns_witness :
  Rag.reachable Toy.ready /\
  exists response answer,
    value (Rag.ask_question Toy.lib true "What is indexed?" Toy.ready)
    = ok response /\
    response !! "answer" = Some (VStr answer).
Proof.
  split; [exact toy_ready_reachable|].
  exact (ask_question_returns Toy.lib true "What is indexed?" Toy.ready
           toy_ready_reachable).
Defined.

Lemma reingest_takes_effect_witness :
  qa_chain Toy.ready = Some {| chain_llm := Rag.LLM_REPO_ID |} /\
  Toy.long_docs <> [] /\
  length
    (Rag.split_documents Toy.lib 1000 200
       (map Rag.to_document Toy.long_docs)) = 2 /\
  forall r query result,
    In (RetrieverInvoked r query result)
      (trace (Rag.ask_question Toy.growing_lib true "What is indexed?"
                (after
                   (Rag.ingest_documents Toy.lib Toy.long_docs Toy.ready)))) ->
    r = as_retriever
          (Chroma_from_documents
             (Rag.split_documents Toy.lib 1000 200
                (map Rag.to_document Toy.long_docs))
             (embedding_function Toy.ready) Rag.VECTORSTORE_DIR) 4.
Proof.
  split; [reflexivity|]. split; [discriminate|].
  split; [vm_compute; reflexivity|].
  refine (proj2 (proj2 (reingest_takes_effect Toy.growing_lib Toy.lib true
                          "What is indexed?" Toy.long_docs Toy.ready
                          {| chain_llm := Rag.LLM_REPO_ID |} eq_refl _ _)));
    [discriminate|vm_compute; discriminate].
Defined.

Lemma conversation_memory_witness :
  Rag.reachable Toy.ready /\
  qa_chain Toy.ready = Some {| chain_llm := Rag.LLM_REPO_ID |} /\
  length
    (memory
       (Session.ask_all Toy.lib true ["What is indexed?"; "And where?"]
          Toy.ready))
  = 4.
Proof.
  split; [exact toy_ready_reachable|]. split; [reflexivity|].
  destruct (conversation_memory Toy.lib true
              ["What is indexed?"; "And where?"] Toy.ready
              {| chain_llm := Rag.LLM_REPO_ID |} toy_ready_reachable eq_refl)
    as (r & _ & _ & Hlen).
  exact Hlen.
Defined.

Lemma ingested_chunks_have_source_witness :
  Toy.docs <> [] /\
  value (Rag.ingest_documents Toy.lib Toy.docs Rag.init) = ok tt /\
  exists chunks,
    vector_store (after (Rag.ingest_documents Toy.lib Toy.docs Rag.init))
    = Some (Chroma_from_documents chunks Rag.EMBEDDING_MODEL_NAME
              Rag.VECTORSTORE_DIR) /\
    In {| page_content := "read me";
          metadata := {[ "source" := "readme.txt" ]} |} chunks /\
    forall chunk,
      In chunk chunks ->
      exists doc,
        In doc Toy.docs /\
        Rag.format_doc chunk
        = "Source: " +:+ source doc +:+ LF +:+
          "Content: " +:+ page_content chunk.
Proof.
  split; [discriminate|]. split; [reflexivity|].
  destruct (ingested_chunks_have_source Toy.lib Toy.docs Rag.init
              ltac:(discriminate) eq_refl)
    as (chunks & _ & Hstore & Hchunks).
  exists chunks. split; [exact Hstore|]. split.
  - cbn in Hstore. injection Hstore as <-. left. reflexivity.
  - intros chunk Hin.
    destruct (Hchunks chunk Hin) as (doc & Hdoc & _ & _ & Hformat).
    now exists doc.
Defined.

Lemma initialize_session_state_once_witness :
  App.messages ToyApp.asked
  = Some [ App.user_message "What is indexed?";
           App.assistant_message (VStr "I don't know.") ] /\
  App.messages (App.initialize_session_state ToyApp.host ToyApp.asked)
  = Some [ App.user_message "What is indexed?";
           App.assistant_message (VStr "I don't know.") ].
Proof.
  split; [reflexivity|].
  exact (proj2 (proj2 (proj2 (initialize_session_state_once ToyApp.host
                                ToyApp.host ToyApp.asked))) _ eq_refl).
Defined.

Lemma chat_is_questions_and_answers_witness :
  App.reachable ToyApp.asked /\
  App.messages ToyApp.asked
  = Some [ App.user_message "What is indexed?";
           App.assistant_message (VStr "I don't know.") ] /\
  exists pairs,
    [ App.user_message "What is indexed?";
      App.assistant_message (VStr "I don't know.") ]
    = flat_map
        (fun qa =>
           [ {| App.role := "user"; App.content := VStr (fst qa) |};
             {| App.role := "assistant"; App.content := snd qa |} ])
        pairs.
Proof.
  split; [exact toy_app_asked_reachable|]. split; [reflexivity|].
  exact (chat_is_questions_and_answers ToyApp.asked _
           toy_app_asked_reachable eq_refl).
Defined.

Lemma memory_was_shown_witness :
  App.reachable ToyApp.asked /\
  exists rag msgs,
    App.rag_core ToyApp.asked = Some rag /\
    App.messages ToyApp.asked = Some msgs /\
    Rag.reachable rag /\
    map App.shown_as (memory rag) `sublist_of` msgs.
Proof.
  split; [exact toy_app_asked_reachable|].
  eexists _, _. split; [reflexivity|]. split; [reflexivity|].
  exact (memory_was_shown ToyApp.asked _ _ toy_app_asked_reachable
           eq_refl eq_refl).
Defined.

Lemma chain_implies_ready_witness :
  App.reachable ToyApp.asked /\
  (ToyApp.asked = App.new_session \/
   exists rag ready msgs,
     ToyApp.asked
     = {| App.rag_core := Some rag; App.chain_ready := Some ready;
          App.messages := Some msgs |} /\
     (is_Some (qa_chain rag) -> ready = true)).
Proof.
  split; [exact toy_app_asked_reachable|].
  exact (chain_implies_ready ToyApp.asked toy_app_asked_reachable).
Defined.

(** The blank file is read, gives no chunk, and the run ends in the
    [ValueError] of the ingest: the question of the run is not asked. *)
Lemma script_raises_only_from_ingest_witness :
  App.reachable ToyApp.ingested /\
  App.raised (App.script ToyApp.host ToyApp.blank_inputs ToyApp.ingested)
  = Some ValueError /\
  App.collect ToyApp.host ToyApp.blank_inputs
  = ok [ {| source := "empty.txt"; content := "" |} ] /\
  App.session (App.script ToyApp.host ToyApp.blank_inputs ToyApp.ingested)
  = ToyApp.ingested /\
  App.notices (App.script ToyApp.host ToyApp.blank_inputs ToyApp.ingested)
  = [].
Proof.
  assert (App.reachable ToyApp.ingested) as Hreach.
  { apply App.reach_run, App.reach_new. }
  split; [exact Hreach|]. split; [reflexivity|]. split; [reflexivity|].
  destruct (script_raises_only_from_ingest ToyApp.host ToyApp.blank_inputs
              ToyApp.ingested ValueError Hreach eq_refl)
    as (_ & _ & Hsession & Hnotices).
  split; [exact Hsession|exact Hnotices].
Defined.

Lemma empty_ingest_marks_ready_witness :
  App.collect ToyApp.host ToyApp.gone_inputs = ok [] /\
  App.session
    (App.script ToyApp.host ToyApp.question_inputs
       (App.session
          (App.script ToyApp.host ToyApp.gone_inputs
             {| App.rag_core := Some Rag.init;
                App.chain_ready := Some false;
                App.messages := Some [] |})))
  = {| App.rag_core := Some Rag.init; App.chain_ready := Some true;
       App.messages :=
         Some [ {| App.role := "user";
                   App.content := VStr "What is indexed?" |};
                {| App.role := "assistant";
                   App.content :=
                     VStr "The QA system is not initialized." |} ] |}.
Proof.
  split; [reflexivity|].
  refine (proj2 (proj2 (empty_ingest_marks_ready ToyApp.host
                          ToyApp.gone_inputs Rag.init false []
                          eq_refl eq_refl eq_refl _ eq_refl eq_refl eq_refl))
            ToyApp.host "What is indexed?" eq_refl _).
  - right. discriminate.
  - discriminate.
Defined.

Lemma question_before_ingest_is_dropped_witness :
  App.session
    (App.script ToyApp.host ToyApp.question_inputs
       {| App.rag_core := Some Rag.init; App.chain_ready := Some false;
          App.messages := Some [] |})
  = {| App.rag_core := Some Rag.init; App.chain_ready := Some false;
       App.messages := Some [] |}.
Proof.
  refine (f_equal App.session
            (question_before_ingest_is_dropped ToyApp.host
               ToyApp.question_inputs "What is indexed?" Rag.init []
               eq_refl eq_refl eq_refl _)).
  discriminate.
Defined.

Lemma ingest_without_input_is_ignored_witness :
  App.session (App.script ToyApp.host ToyApp.bare_inputs ToyApp.asked)
  = ToyApp.asked.
Proof.
  exact (proj1 (proj2 (ingest_without_input_is_ignored ToyApp.host
                         ToyApp.bare_inputs ToyApp.asked
                         eq_refl eq_refl eq_refl eq_refl eq_refl))).
Defined.

Lemma session_configuration_witness :
  Rag.reachable Toy.asked /\
  forall chain,
    qa_chain Toy.asked = Some chain ->
    chain_llm chain = "mistralai/Mixtral-8x7B-Instruct-v0.1".
Proof.
  split; [exact toy_asked_reachable|].
  exact (proj2 (proj2 (session_configuration Toy.asked toy_asked_reachable))).
Defined.

End MoreWitnesses.
